(** * Verification of [python_scripts/generate_interfaces.py]

    A shallow embedding of the interface generator of the Astarte device SDK
    for ESP32: the script reads every [.json] interface definition of a
    directory, renders a C header and a C source file from fixed templates and
    either writes them or, in check mode, compares them with the files on
    disk.

    Conventions of the embedding.
    - Python [str] values are [string]s (sequences of bytes, UTF-8 for text
      outside ASCII); [str.upper] is modelled on the ASCII letters, which is
      what type tags and file names consist of.
    - A [Path] is the list of its components; the file system maps paths to
      nodes, a node being a directory or a regular file holding text, so that
      a directory lists its sub-directories along with its files.  Text is
      stored and read back unchanged (encodings, newline translation,
      permissions and disk space are outside the model), and the base name
      of the output is one path component.
    - [json.load] followed by [Interface(...)], which belong to the Python
      standard library and to the [astarte.device] package, are a parameter
      [load] of the development: it maps the text of a file to an exception
      or to the loaded interface object, whose attributes are the fields of
      [Interface.t] and [Mapping.t].
    - Uncaught exceptions and [sys.exit] are explicit outcomes of a run. *)

From Stdlib Require Import ZArith Lia Ascii String.
From stdpp Require Import base option list strings sorting pretty gmap.

Local Open Scope string_scope.
Local Open Scope Z_scope.
Local Open Scope list_scope.

(** ** Strings *)

(** The double quote character, as a one-character string. *)
Definition dq : string := String (Ascii.ascii_of_nat 34) EmptyString.

(** [old.replace(a, b)] for one-character [a] and [b]. *)
Fixpoint replace (a b : ascii) (s : string) : string :=
  match s with
  | EmptyString => EmptyString
  | String c s' => String (if Ascii.eqb c a then b else c) (replace a b s')
  end.

Definition upper_ascii (c : ascii) : ascii :=
  let n := Ascii.nat_of_ascii c in
  if ((97 <=? n) && (n <=? 122))%nat then Ascii.ascii_of_nat (n - 32) else c.

(** [s.upper()]. *)
Fixpoint upper (s : string) : string :=
  match s with
  | EmptyString => EmptyString
  | String c s' => String (upper_ascii c) (upper s')
  end.

(** The line feed, as a one-character string. *)
Definition newline : string := "
".

(** [sep.join(l)]. *)
Fixpoint join (sep : string) (l : list string) : string :=
  match l with
  | [] => ""
  | [x] => x
  | x :: l' => x +:+ sep +:+ join sep l'
  end.

(** The part of [s] that starts at its last dot, when it has one. *)
Fixpoint last_dot_tail (s : string) : option string :=
  match s with
  | EmptyString => None
  | String c s' =>
      match last_dot_tail s' with
      | Some t => Some t
      | None => if Ascii.eqb c "." then Some s else None
      end
  end.

(** [PurePath.suffix] on the final component [name] of a path:
    [i = name.rfind('.')]; [name[i:]] if [0 < i < len(name) - 1], else ['']. *)
Definition suffix (name : string) : string :=
  match name with
  | EmptyString => ""
  | String _ rest =>
      match last_dot_tail rest with
      | Some t => if (String.length t <=? 1)%nat then "" else t
      | None => ""
      end
  end.

(** ** Exceptions and results *)

Abbreviation path := (list string).

Inductive exn :=
| KeyError (key : string)
| FileNotFoundError (p : path)
| IsADirectoryError (p : path)
| NotADirectoryError (p : path)
| FileExistsError (p : path)
| LoadError (msg : string).

Inductive result (A : Type) :=
| Ok (a : A)
| Raise (e : exn).
Arguments Ok {A} a.
Arguments Raise {A} e.

#[global] Instance result_ret : MRet result := @Ok.
#[global] Instance result_bind : MBind result := λ A B f m,
  match m with
  | Ok a => f a
  | Raise e => Raise e
  end.

(** ** [string.Template] *)

(** A template is kept as the sequence of its literal pieces and of its
    [${name}] placeholders. *)
Inductive segment :=
| Lit (s : string)
| Hole (name : string).

Definition Template := list segment.

Fixpoint kw_get (kw : list (string * string)) (name : string) : option string :=
  match kw with
  | [] => None
  | (k, v) :: kw' => if String.eqb k name then Some v else kw_get kw' name
  end.

(** [Template.substitute] with keyword arguments [kw]: a placeholder without a value is a
    [KeyError]; substituted values are not scanned again. *)
Fixpoint substitute (t : Template) (kw : list (string * string)) : result string :=
  match t with
  | [] => Ok ""
  | Lit s :: t' => rest ← substitute t' kw; Ok (s +:+ rest)
  | Hole h :: t' =>
      match kw_get kw h with
      | Some v => rest ← substitute t' kw; Ok (v +:+ rest)
      | None => Raise (KeyError h)
      end
  end.

Definition interface_header_template : Template :=
  [ Lit "/**
 * @file "; Hole "output_filename"; Lit ".h
 * @brief Contains automatically generated interfaces.
 *
 * @warning Do not modify this file manually.
 *
 * @details The generated structures contain all information regarding each interface.
 * and are automatically generated from the json interfaces definitions.
 */

// NOLINTNEXTLINE This guard is clear enough.
#ifndef "; Hole "output_filename_cap"; Lit "_H
#define "; Hole "output_filename_cap"; Lit "_H

#include <astarte_device_sdk/interface.h>
#include <astarte_device_sdk/mapping.h>

// Interface names should resemble as closely as possible their respective .json file names.
// NOLINTBEGIN(readability-identifier-naming)
"; Hole "interfaces_declarations"; Lit "
// NOLINTEND(readability-identifier-naming)

#endif /* "; Hole "output_filename_cap"; Lit "_H */
" ].

Definition interface_source_template : Template :=
  [ Lit "/**
 * @file "; Hole "output_filename"; Lit ".c
 * @brief Contains automatically generated interfaces.
 *
 * @warning Do not modify this file manually.
 */

#include "; Lit dq; Hole "output_filename"; Lit ".h"; Lit dq; Lit "

// Interface names should resemble as closely as possible their respective .json file names.
// NOLINTBEGIN(readability-identifier-naming)
"; Hole "interfaces_declarations"; Lit "

// NOLINTEND(readability-identifier-naming)
" ].

Definition interface_declaration_template : Template :=
  [ Lit "extern const astarte_interface_t "; Hole "interface_name_sc"; Lit ";" ].

Definition interface_definition_template : Template :=
  [ Lit "
static const astarte_mapping_t "; Hole "interface_name_sc";
    Lit "_mappings["; Hole "mappings_number"; Lit "] = {
"; Hole "mappings"; Lit "
};

const astarte_interface_t "; Hole "interface_name_sc"; Lit " = {
    .name = "; Lit dq; Hole "interface_name"; Lit dq; Lit ",
    .major_version = "; Hole "version_major"; Lit ",
    .minor_version = "; Hole "version_minor"; Lit ",
    .type = "; Hole "type"; Lit ",
    .ownership = "; Hole "ownership"; Lit ",
    .aggregation = "; Hole "aggregation"; Lit ",
    .mappings = "; Hole "interface_name_sc"; Lit "_mappings,
    .mappings_length = "; Hole "mappings_number"; Lit "U,
};" ].

Definition mapping_definition_template : Template :=
  [ Lit "
    {
        .endpoint = "; Lit dq; Hole "endpoint"; Lit dq; Lit ",
        .type = "; Hole "type"; Lit ",
        .reliability = "; Hole "reliability"; Lit ",
        .explicit_timestamp = "; Hole "explicit_timestamp"; Lit ",
        .allow_unset = "; Hole "allow_unset"; Lit ",
    }," ].

(** ** Interface objects *)

(** The attributes of an [astarte.device] mapping that the generator reads. *)
Module Mapping.
Record t := Build {
  endpoint : string;
  type : string;
  reliability : Z;
  explicit_timestamp : bool;
  allow_unset : bool
}.
End Mapping.

(** The attributes and predicates of an [astarte.device.Interface] that the
    generator reads; the three booleans are the results of the methods of
    the same names. *)
Module Interface.
Record t := Build {
  name : string;
  version_major : Z;
  version_minor : Z;
  is_type_properties : bool;
  is_server_owned : bool;
  is_aggregation_object : bool;
  mappings : list Mapping.t
}.
End Interface.

(** ** The body of the two loops *)

Definition reliability_lookup : list (Z * string) :=
  [ (0, "UNRELIABLE"); (1, "GUARANTEED"); (2, "UNIQUE") ].

(** [reliability_lookup[key]]. *)
Fixpoint getitem (d : list (Z * string)) (key : Z) : result string :=
  match d with
  | [] => Raise (KeyError (pretty key))
  | (k, v) :: d' => if Z.eqb k key then Ok v else getitem d' key
  end.

(** ["true" if b else "false"]. *)
Definition c_bool (b : bool) : string := if b then "true" else "false".

(** The value passed as [type=] for a mapping (line 141). *)
Definition mapping_type_constant (tag : string) : string :=
  "ASTARTE_MAPPING_TYPE_" +:+ upper tag.

(** The value passed as [reliability=] for a mapping (lines 142-143). *)
Definition mapping_reliability_constant (r : Z) : result string :=
  level ← getitem reliability_lookup r;
  Ok ("ASTARTE_MAPPING_RELIABILITY_" +:+ level).

(** One iteration of the inner loop, up to the [append]: the text of one
    mapping record. *)
Definition mapping_struct (mapping : Mapping.t) : result string :=
  reliability ← mapping_reliability_constant (Mapping.reliability mapping);
  substitute mapping_definition_template
    [ ("endpoint", Mapping.endpoint mapping);
      ("type", mapping_type_constant (Mapping.type mapping));
      ("reliability", reliability);
      ("explicit_timestamp", c_bool (Mapping.explicit_timestamp mapping));
      ("allow_unset", c_bool (Mapping.allow_unset mapping)) ].

(** The inner loop: [mappings_struct] starts empty and grows by one record
    per mapping, in the order of [interface.mappings]. *)
Fixpoint mappings_loop (acc : list string) (ms : list Mapping.t) : result (list string) :=
  match ms with
  | [] => Ok acc
  | mapping :: ms' =>
      s ← mapping_struct mapping;
      mappings_loop (acc ++ [s]) ms'
  end.

(** [interface.name.replace(".", "_").replace("-", "_")]. *)
Definition interface_name_sc (name : string) : string :=
  replace "-" "_" (replace "." "_" name).

Definition itype (i : Interface.t) : string :=
  "ASTARTE_INTERFACE_" +:+
  (if Interface.is_type_properties i then "TYPE_PROPERTIES" else "TYPE_DATASTREAM").

Definition iownership (i : Interface.t) : string :=
  "ASTARTE_INTERFACE_" +:+
  (if Interface.is_server_owned i then "OWNERSHIP_SERVER" else "OWNERSHIP_DEVICE").

Definition iaggregation (i : Interface.t) : string :=
  "ASTARTE_INTERFACE_" +:+
  (if Interface.is_aggregation_object i then "AGGREGATION_OBJECT"
   else "AGGREGATION_INDIVIDUAL").

(** The definition of one interface, given the records of its mappings
    (lines 161-171). *)
Definition interface_struct (i : Interface.t) (mappings_struct : list string)
  : result string :=
  substitute interface_definition_template
    [ ("mappings_number", pretty (length (Interface.mappings i)));
      ("interface_name_sc", interface_name_sc (Interface.name i));
      ("interface_name", Interface.name i);
      ("version_major", pretty (Interface.version_major i));
      ("version_minor", pretty (Interface.version_minor i));
      ("type", itype i);
      ("ownership", iownership i);
      ("aggregation", iaggregation i);
      ("mappings", join "" mappings_struct) ].

(** The [extern] declaration of one interface (lines 175-177). *)
Definition interface_declaration (i : Interface.t) : result string :=
  substitute interface_declaration_template
    [ ("interface_name_sc", interface_name_sc (Interface.name i)) ].

(** ** The file system *)

Inductive node :=
| Dir
| File (text : string).

Abbreviation filesystem := (gmap path node).

Definition parent (p : path) : path := removelast p.

(** [Path.exists()]. *)
Definition exists_ (σ : filesystem) (p : path) : bool :=
  bool_decide (is_Some (σ !! p)).

(** [child_name d p] is [Some n] when [p] is the entry named [n] of the
    directory [d]. *)
Fixpoint child_name (d p : path) : option string :=
  match d, p with
  | [], [n] => Some n
  | x :: d', y :: p' => if String.eqb x y then child_name d' p' else None
  | _, _ => None
  end.

(** The names of the entries of [d], in the order in which the file system
    happens to yield them. *)
Definition entries (σ : filesystem) (d : path) : list string :=
  omap (λ kv, child_name d kv.1) (map_to_list σ).

(** [Path.iterdir()], by entry names. *)
Definition iterdir (σ : filesystem) (d : path) : result (list string) :=
  match σ !! d with
  | Some Dir => Ok (entries σ d)
  | Some (File _) => Raise (NotADirectoryError d)
  | None => Raise (FileNotFoundError d)
  end.

(** [open(p, "r").read()]. *)
Definition open_read (σ : filesystem) (p : path) : result string :=
  match σ !! p with
  | Some (File text) => Ok text
  | Some Dir => Raise (IsADirectoryError p)
  | None =>
      match σ !! parent p with
      | Some (File _) => Raise (NotADirectoryError p)
      | _ => Raise (FileNotFoundError p)
      end
  end.

(** [open(p, "w").write(text)]: the file is created or replaced. *)
Definition open_write (σ : filesystem) (p : path) (text : string)
  : result filesystem :=
  match σ !! p with
  | Some Dir => Raise (IsADirectoryError p)
  | _ =>
      match σ !! parent p with
      | Some Dir => Ok (<[p := File text]> σ)
      | Some (File _) => Raise (NotADirectoryError p)
      | None => Raise (FileNotFoundError p)
      end
  end.

(** [os.mkdir(p)]. *)
Definition mkdir (σ : filesystem) (p : path) : result filesystem :=
  match σ !! p with
  | Some _ => Raise (FileExistsError p)
  | None =>
      match σ !! parent p with
      | Some Dir => Ok (<[p := Dir]> σ)
      | Some (File _) => Raise (NotADirectoryError p)
      | None => Raise (FileNotFoundError p)
      end
  end.

(** [os.makedirs]: the missing ancestors are made first, then the directory
    itself; the recursion is on the components read from the last one. *)
Fixpoint makedirs_rev (σ : filesystem) (rp : list string) : result filesystem :=
  match rp with
  | [] => mkdir σ []
  | _ :: rhead =>
      σ' ← (if exists_ σ (reverse rhead) then Ok σ else makedirs_rev σ rhead);
      mkdir σ' (reverse rp)
  end.

Definition makedirs (σ : filesystem) (p : path) : result filesystem :=
  makedirs_rev σ (reverse p).

(** ** The generator *)

(** How a call of [generate_interfaces] ends: it returns, it calls
    [sys.exit(code)], or an exception leaves it. *)
Inductive outcome :=
| Returned
| SysExit (code : Z)
| Raised (e : exn).

(** A run: the file system it leaves, what it printed, and how it ended. *)
Record run := Run {
  fs_after : filesystem;
  stdout : list string;
  ending : outcome
}.

(** The exit status of the interpreter when the script ends this way. *)
Definition exit_code (o : outcome) : Z :=
  match o with
  | Returned => 0
  | SysExit code => code
  | Raised _ => 1
  end.

(** [sorted([i for i in interfaces_dir.iterdir() if i.suffix == ".json"])]:
    the entries of one directory compare by name. *)
Definition json_files (entries : list string) : list string :=
  merge_sort String.le (filter (λ n, suffix n = ".json") entries).

Section generator.

(** [json.load] followed by [Interface(...)], on the text of a file. *)
Variable load : string → result Interface.t.

(** The body of the outer loop for the file [n] of [interfaces_dir], with
    the two lists as accumulators. *)
Definition interface_step (σ : filesystem) (interfaces_dir : path)
    (acc : list string * list string) (n : string)
  : result (list string * list string) :=
  text ← open_read σ (interfaces_dir ++ [n]);
  interface ← load text;
  mappings_struct ← mappings_loop [] (Interface.mappings interface);
  interface_struct ← interface_struct interface mappings_struct;
  interface_declaration ← interface_declaration interface;
  Ok (acc.1 ++ [interface_declaration], acc.2 ++ [interface_struct]).

(** The outer loop; [acc] is the pair
    [(interfaces_declarations, interfaces_structs)]. *)
Fixpoint interfaces_loop (σ : filesystem) (interfaces_dir : path)
    (acc : list string * list string) (files : list string)
  : result (list string * list string) :=
  match files with
  | [] => Ok acc
  | n :: files' =>
      acc' ← interface_step σ interfaces_dir acc n;
      interfaces_loop σ interfaces_dir acc' files'
  end.

Definition interfaces_header (output_fn : string) (interfaces_declarations : list string)
  : result string :=
  substitute interface_header_template
    [ ("output_filename", output_fn);
      ("output_filename_cap", upper output_fn);
      ("interfaces_declarations", join newline interfaces_declarations) ].

Definition interfaces_source (output_fn : string) (interfaces_structs : list string)
  : result string :=
  substitute interface_source_template
    [ ("output_filename", output_fn);
      ("interfaces_declarations", join newline interfaces_structs) ].

(** Lines 127-189: everything up to the two rendered texts. *)
Definition render (σ : filesystem) (interfaces_dir : path) (output_fn : string)
  : result (string * string) :=
  entries ← iterdir σ interfaces_dir;
  lists ← interfaces_loop σ interfaces_dir ([], []) (json_files entries);
  header ← interfaces_header output_fn lists.1;
  source ← interfaces_source output_fn lists.2;
  Ok (header, source).

Definition generated_header (output_dir : path) (output_fn : string) : path :=
  output_dir ++ [output_fn +:+ ".h"].

Definition generated_source (output_dir : path) (output_fn : string) : path :=
  output_dir ++ [output_fn +:+ ".c"].

(** Lines 194-207. *)
Definition check_files (σ : filesystem) (output_dir : path) (output_fn : string)
    (header source : string) : run :=
  if negb (exists_ σ output_dir) then
    Run σ ["Check failed: non existant output directory"] (SysExit 1)
  else
    match open_read σ (generated_header output_dir output_fn) with
    | Raise e => Run σ [] (Raised e)
    | Ok on_disk =>
        if negb (String.eqb on_disk header) then
          Run σ ["Check failed: header is not up to date"] (SysExit 1)
        else
          match open_read σ (generated_source output_dir output_fn) with
          | Raise e => Run σ [] (Raised e)
          | Ok on_disk =>
              if negb (String.eqb on_disk source) then
                Run σ ["Check failed: source is not up to date"] (SysExit 1)
              else Run σ [] Returned
          end
    end.

(** Lines 208-218. *)
Definition write_files (σ : filesystem) (output_dir : path) (output_fn : string)
    (header source : string) : run :=
  match (if negb (exists_ σ output_dir) then makedirs σ output_dir else Ok σ) with
  | Raise e => Run σ [] (Raised e)
  | Ok σ1 =>
      match open_write σ1 (generated_header output_dir output_fn) header with
      | Raise e => Run σ1 [] (Raised e)
      | Ok σ2 =>
          match open_write σ2 (generated_source output_dir output_fn) source with
          | Raise e => Run σ2 [] (Raised e)
          | Ok σ3 => Run σ3 [] Returned
          end
      end
  end.

Definition generate_interfaces (σ : filesystem) (interfaces_dir output_dir : path)
    (output_fn : string) (check : bool) : run :=
  match render σ interfaces_dir output_fn with
  | Raise e => Run σ [] (Raised e)
  | Ok (header, source) =>
      if check then check_files σ output_dir output_fn header source
      else write_files σ output_dir output_fn header source
  end.


End generator.

(** ** Concrete inputs *)

Definition temperature_interface : Interface.t :=
  Interface.Build "org.Temperature" 0 1 false false false
    [ Mapping.Build "/temp" "double" 1 true false ].

Definition hyphen_interface : Interface.t :=
  Interface.Build "org.a-b" 1 0 false false false
    [ Mapping.Build "/value" "integer" 0 false false ].

Definition underscore_interface : Interface.t :=
  Interface.Build "org.a_b" 1 0 false false false
    [ Mapping.Build "/value" "integer" 0 false false ].

Definition empty_interface : Interface.t :=
  Interface.Build "org.Empty" 1 0 true true false [].

Definition quaternion_interface : Interface.t :=
  Interface.Build "org.Odd" 1 0 false false false
    [ Mapping.Build "/q" "quaternion" 2 false false ].

Definition careless_interface : Interface.t :=
  Interface.Build "org.Careless" 1 0 false false false
    [ Mapping.Build "/a" "integer" 0 false false;
      Mapping.Build "/b" "integer" 3 false false ].

(** A loader for the examples: each file holds the name of the document it
    stands for, and any other text fails to parse. *)
Definition example_load (text : string) : result Interface.t :=
  if String.eqb text "temperature" then Ok temperature_interface
  else if String.eqb text "hyphen" then Ok hyphen_interface
  else if String.eqb text "underscore" then Ok underscore_interface
  else if String.eqb text "empty" then Ok empty_interface
  else if String.eqb text "quaternion" then Ok quaternion_interface
  else if String.eqb text "careless" then Ok careless_interface
  else Raise (LoadError text).

(** One schema file, [org.Temp.json], and no generated artifact. *)
Definition example_fs : filesystem :=
  {[ [] := Dir; ["in"] := Dir; ["in"; "org.Temp.json"] := File "temperature" ]}.

(** Two schema files whose interfaces are named [org.a-b] and [org.a_b]. *)
Definition collision_fs : filesystem :=
  {[ [] := Dir; ["in"] := Dir; ["out"] := Dir;
     ["in"; "a.json"] := File "hyphen";
     ["in"; "b.json"] := File "underscore" ]}.



(** One valid schema file and one that does not parse. *)
Definition broken_fs : filesystem :=
  {[ [] := Dir; ["in"] := Dir; ["out"] := Dir;
     ["in"; "org.Temp.json"] := File "temperature";
     ["in"; "z.json"] := File "{" ]}.

(** A schema file with a mapping of reliability 3. *)
Definition careless_fs : filesystem :=
  {[ [] := Dir; ["in"] := Dir; ["out"] := Dir;
     ["in"; "c.json"] := File "careless" ]}.


(** The text of the file at [p], or the empty text. *)
Definition text_at (σ : filesystem) (p : path) : string :=
  match σ !! p with
  | Some (File text) => text
  | _ => ""
  end.

(** ** Vocabulary of the statements *)

(** Letters, digits and the underscore: the characters of a C identifier. *)
Definition is_identifier_char (c : ascii) : bool :=
  let n := Ascii.nat_of_ascii c in
  ((65 <=? n) && (n <=? 90) || (97 <=? n) && (n <=? 122)
   || (48 <=? n) && (n <=? 57) || (n =? 95))%nat.

Definition is_separator (c : ascii) : bool :=
  Ascii.eqb c "." || Ascii.eqb c "-".

Fixpoint string_forall (P : ascii → bool) (s : string) : bool :=
  match s with
  | EmptyString => true
  | String c s' => P c && string_forall P s'
  end.

(** What the sanitizer does to one character. *)
Definition sanitize_char (c : ascii) : ascii :=
  if is_separator c then "_"%char else c.

(** The claim as the specification words it: whatever the name, the symbol
    consists of letters, digits and underscores only. *)
Definition sanitized_symbol_is_identifier (name : string) : Prop :=
  string_forall is_identifier_char (interface_name_sc name) = true.

Definition is_Ok {A} (r : result A) : Prop := ∃ a, r = Ok a.

(** The declaration and the definition of one interface (the part of the
    body of the outer loop that follows the loading). *)
Definition interface_texts (i : Interface.t) : result (string * string) :=
  mappings_struct ← mappings_loop [] (Interface.mappings i);
  s ← interface_struct i mappings_struct;
  d ← interface_declaration i;
  Ok (d, s).

Definition declaration_text (i : Interface.t) : string :=
  "extern const astarte_interface_t " +:+ interface_name_sc (Interface.name i) +:+ ";".

(** The declaration and the definition that the file [n] of [d] yields. *)
Definition file_texts (load : string → result Interface.t)
    (σ : filesystem) (d : path) (n : string) : result (string * string) :=
  text ← open_read σ (d ++ [n]);
  i ← load text;
  interface_texts i.

(** What [makedirs] leaves: nothing that existed is touched, and what is
    new is a directory on the way to [d]. *)
Definition extends_to (d : path) (σ σ' : filesystem) : Prop :=
  ∀ p, σ' !! p = σ !! p ∨ (σ !! p = None ∧ σ' !! p = Some Dir ∧ p `prefix_of` d).

(** When [p] lies below the directory [d], the entry of [d] on the way to
    [p] (or [p] itself, when it is an entry of [d]). *)
Fixpoint entry_towards (d p : path) : option string :=
  match d, p with
  | [], n :: _ => Some n
  | x :: d', y :: p' => if String.eqb x y then entry_towards d' p' else None
  | _, _ => None
  end.

(** The output directory is usable with the input directory [d] when, if it
    lies below [d], it is not reached through an entry of [d] that the
    extension filter selects. *)
Definition output_dir_valid (interfaces_dir output_dir : path) : bool :=
  match entry_towards interfaces_dir output_dir with
  | Some n => negb (String.eqb (suffix n) ".json")
  | None => true
  end.

(** The text of one mapping record, by its five fields. *)
Definition mapping_record_text
    (endpoint type_constant reliability_constant explicit_timestamp allow_unset : string)
  : string :=
  "
    {
        .endpoint = " +:+ dq +:+ endpoint +:+ dq +:+ ",
        .type = " +:+ type_constant +:+ ",
        .reliability = " +:+ reliability_constant +:+ ",
        .explicit_timestamp = " +:+ explicit_timestamp +:+ ",
        .allow_unset = " +:+ allow_unset +:+ ",
    },".

(** The text of the definition of one interface, by the sanitized symbol,
    the number of mappings as it is printed and the text of the records. *)
Definition definition_text (i : Interface.t) (symbol mappings_number records : string)
  : string :=
  "
static const astarte_mapping_t " +:+ symbol +:+ "_mappings[" +:+ mappings_number +:+ "] = {
" +:+ records +:+ "
};

const astarte_interface_t " +:+ symbol +:+ " = {
    .name = " +:+ dq +:+ Interface.name i +:+ dq +:+ ",
    .major_version = " +:+ pretty (Interface.version_major i) +:+ ",
    .minor_version = " +:+ pretty (Interface.version_minor i) +:+ ",
    .type = " +:+ itype i +:+ ",
    .ownership = " +:+ iownership i +:+ ",
    .aggregation = " +:+ iaggregation i +:+ ",
    .mappings = " +:+ symbol +:+ "_mappings,
    .mappings_length = " +:+ mappings_number +:+ "U,
};".

(** The header, by the base name and the text of the declarations. *)
Definition header_text (output_fn declarations : string) : string :=
  "/**
 * @file " +:+ output_fn +:+ ".h
 * @brief Contains automatically generated interfaces.
 *
 * @warning Do not modify this file manually.
 *
 * @details The generated structures contain all information regarding each interface.
 * and are automatically generated from the json interfaces definitions.
 */

// NOLINTNEXTLINE This guard is clear enough.
#ifndef " +:+ upper output_fn +:+ "_H
#define " +:+ upper output_fn +:+ "_H

#include <astarte_device_sdk/interface.h>
#include <astarte_device_sdk/mapping.h>

// Interface names should resemble as closely as possible their respective .json file names.
// NOLINTBEGIN(readability-identifier-naming)
" +:+ declarations +:+ "
// NOLINTEND(readability-identifier-naming)

#endif /* " +:+ upper output_fn +:+ "_H */
".

(** The source, by the base name and the text of the definitions. *)
Definition source_text (output_fn definitions : string) : string :=
  "/**
 * @file " +:+ output_fn +:+ ".c
 * @brief Contains automatically generated interfaces.
 *
 * @warning Do not modify this file manually.
 */

#include " +:+ dq +:+ output_fn +:+ ".h" +:+ dq +:+ "

// Interface names should resemble as closely as possible their respective .json file names.
// NOLINTBEGIN(readability-identifier-naming)
" +:+ definitions +:+ "

// NOLINTEND(readability-identifier-naming)
".

(** The definition of an interface whose mapping records are [records]. *)
Definition interface_definition (i : Interface.t) (records : list string) : string :=
  definition_text i (interface_name_sc (Interface.name i))
    (pretty (length (Interface.mappings i))) (join "" records).

(** The file [n] of the directory [d] is a regular file that loads as [i]. *)
Definition loads (load : string → result Interface.t) (σ : filesystem) (d : path)
    (n : string) (i : Interface.t) : Prop :=
  ∃ text, σ !! (d ++ [n]) = Some (File text) ∧ load text = Ok i.

(** The records of the mappings of [i], one per mapping and in their order. *)
Definition records_of (i : Interface.t) (records : list string) : Prop :=
  Forall2 (λ m r, mapping_struct m = Ok r) (Interface.mappings i) records.

(** The two texts as a function of the loaded interfaces and of the base
    name. *)
Definition render_interfaces (interfaces : list Interface.t) (output_fn : string)
  : result (string * string) :=
  rs ← mapM interface_texts interfaces;
  Ok (header_text output_fn (join newline rs.*1),
      source_text output_fn (join newline rs.*2)).





(** The header and the source of the directory that holds
    [org.Temp.json] only. *)
Definition example_header : string :=
  header_text "generated_interfaces" (declaration_text temperature_interface).

Definition example_source : string :=
  source_text "generated_interfaces"
    (interface_definition temperature_interface
       [ mapping_record_text "/temp" "ASTARTE_MAPPING_TYPE_DOUBLE"
           "ASTARTE_MAPPING_RELIABILITY_GUARANTEED" "true" "false" ]).

(** The same directory with a file that is not a schema file. *)
Definition example_fs_with_notes : filesystem :=
  <[ ["in"; "notes.txt"] := File "to do" ]> example_fs.

(** The reliability of the first mapping, in document order, that is not a
    key of [reliability_lookup]. *)
Fixpoint first_bad_reliability (ms : list Mapping.t) : option Z :=
  match ms with
  | [] => None
  | m :: ms' =>
      if (0 <=? Mapping.reliability m) && (Mapping.reliability m <=? 2)
      then first_bad_reliability ms'
      else Some (Mapping.reliability m)
  end.

(** An input directory that holds a text file and no schema file. *)
Definition notes_only_fs : filesystem :=
  {[ [] := Dir; ["in"] := Dir; ["in"; "notes.txt"] := File "to do" ]}.

(** An output directory in which the name of the source is taken by a
    directory. *)
Definition blocked_fs : filesystem :=
  <[ ["out"] := Dir ]>
    (<[ ["out"; "generated_interfaces.c"] := Dir ]> example_fs).

(** ** Properties of the string functions *)

Lemma interface_name_sc_cons c s :
  interface_name_sc (String c s) = String (sanitize_char c) (interface_name_sc s).
Proof.
  unfold interface_name_sc, sanitize_char, is_separator; simpl.
  destruct (Ascii.eqb_spec c "."); subst; simpl; [done|].
  by destruct (Ascii.eqb_spec c "-").
Qed.

Lemma interface_name_sc_length s :
  String.length (interface_name_sc s) = String.length s.
Proof.
  induction s as [|c s IH]; [done|].
  rewrite interface_name_sc_cons; simpl; by rewrite IH.
Qed.

Lemma interface_name_sc_get s i :
  String.get i (interface_name_sc s) = sanitize_char <$> String.get i s.
Proof.
  revert i; induction s as [|c s IH]; intros i; [done|].
  rewrite interface_name_sc_cons. destruct i as [|i]; simpl; [done|apply IH].
Qed.

Lemma is_identifier_sanitize_char c :
  is_identifier_char (sanitize_char c) = is_identifier_char c || is_separator c.
Proof.
  unfold sanitize_char. destruct (is_separator c) eqn:E.
  - by rewrite orb_true_r.
  - by rewrite orb_false_r.
Qed.

Lemma last_dot_tail_app_dot s t :
  last_dot_tail t = None →
  last_dot_tail (s +:+ String "." t) = Some (String "." t).
Proof.
  intros Ht. induction s as [|c s IH]; simpl.
  - by rewrite Ht.
  - by rewrite IH.
Qed.

(** The suffix of a name that ends in [.h] or [.c] is never [.json]. *)
Lemma suffix_app_h s : suffix (s +:+ ".h") ≠ ".json".
Proof.
  destruct s as [|c s]; [done|]. simpl.
  by rewrite (last_dot_tail_app_dot s "h").
Qed.

Lemma suffix_app_c s : suffix (s +:+ ".c") ≠ ".json".
Proof.
  destruct s as [|c s]; [done|]. simpl.
  by rewrite (last_dot_tail_app_dot s "c").
Qed.

Lemma app_h_ne_app_c s : s +:+ ".h" ≠ s +:+ ".c".
Proof. induction s as [|c s IH]; simpl; [done|]. by intros [=]. Qed.

(** ** C4: the identifier sanitizer *)

(** C4, counterexample: a name with a space keeps its space, so the symbol
    of ["org.my sensor"] is not made of identifier characters only. *)
Lemma C4_sanitizer_counterexample :
  interface_name_sc "org.my sensor" = "org_my sensor" ∧
  ¬ sanitized_symbol_is_identifier "org.my sensor".
Proof. split; [reflexivity|]. unfold sanitized_symbol_is_identifier. by vm_compute. Qed.

(** C4, as amended: the sanitizer is a character-wise function of the name
    that replaces exactly the two separators ['.'] and ['-'] by ['_'] and
    keeps every other character; the symbol therefore consists of letters,
    digits and underscores only exactly when the name consists of letters,
    digits, underscores, dots and hyphens. *)
Theorem C4_sanitizer_replaces_separators (name : string) :
  String.length (interface_name_sc name) = String.length name ∧
  (∀ i, String.get i (interface_name_sc name)
        = (λ c, if is_separator c then "_"%char else c) <$> String.get i name) ∧
  string_forall is_identifier_char (interface_name_sc name)
  = string_forall (λ c, is_identifier_char c || is_separator c) name.
Proof.
  split; [apply interface_name_sc_length|].
  split; [intros i; apply interface_name_sc_get|].
  induction name as [|c s IH]; [done|].
  rewrite interface_name_sc_cons; simpl.
  by rewrite is_identifier_sanitize_char, IH.
Qed.

(** ** The result monad *)

(** One step of the monad, without unfolding the functions of the script. *)
Ltac monad_simpl := cbn [mbind mret result_bind result_ret].
Tactic Notation "monad_simpl" "in" hyp(H) :=
  cbn [mbind mret result_bind result_ret] in H.

Lemma bind_Ok {A B} (f : A → result B) (m : result A) (b : B) :
  m ≫= f = Ok b ↔ ∃ a, m = Ok a ∧ f a = Ok b.
Proof.
  destruct m as [a|e]; simpl.
  - split; [intros H; by exists a|].
    intros (a' & H & ?); by injection H as <-.
  - split; [done|]. intros (? & H & ?); discriminate H.
Qed.

Lemma bind_Raise {A B} (f : A → result B) (m : result A) (e : exn) :
  m ≫= f = Raise e ↔ m = Raise e ∨ ∃ a, m = Ok a ∧ f a = Raise e.
Proof.
  destruct m as [a|e']; simpl.
  - split; [intros H; right; by exists a|].
    intros [H|(a' & H & ?)]; [discriminate H|by injection H as <-].
  - split; [intros H; left; by injection H as ->|].
    intros [H|(? & H & ?)]; [by injection H as ->|discriminate H].
Qed.

Lemma mapM_result_Ok {A B} (f : A → result B) (l : list A) (k : list B) :
  mapM f l = Ok k ↔ Forall2 (λ x y, f x = Ok y) l k.
Proof.
  revert k. induction l as [|x l IH]; intros k; simpl.
  - split; [intros [= <-]; constructor|by inversion 1].
  - rewrite bind_Ok. split.
    + intros (y & Hy & Hk). apply bind_Ok in Hk as (k' & Hk' & [= <-]).
      constructor; [done|by apply IH].
    + inversion 1 as [|? y ? k' Hy Hk']; subst. exists y; split; [done|].
      apply bind_Ok. exists k'. split; [by apply IH|done].
Qed.

Lemma mapM_result_Raise {A B} (f : A → result B) (l : list A) :
  (∃ e, mapM f l = Raise e) ↔ Exists (λ x, ∃ e, f x = Raise e) l.
Proof.
  induction l as [|x l IH]; simpl.
  - split; [by intros [? [=]]|by inversion 1].
  - rewrite Exists_cons, <-IH. destruct (f x) as [y|e]; simpl.
    + destruct (mapM f l) as [k|e]; simpl.
      * split; [by intros [? [=]]|]. intros [[? [=]]|[? [=]]].
      * split; [eauto|]. eauto.
    + split; eauto.
Qed.

Lemma mapM_result_ext {A B} (f g : A → result B) (l : list A) :
  (∀ x, x ∈ l → f x = g x) → mapM f l = mapM g l.
Proof.
  induction l as [|x l IH]; intros Hfg; simpl; [done|].
  rewrite (Hfg x) by left. rewrite IH; [done|].
  intros y Hy. apply Hfg. by right.
Qed.

(** ** The two loops in closed form *)

Lemma getitem_reliability_Ok (r : Z) :
  0 ≤ r ≤ 2 → is_Ok (getitem reliability_lookup r).
Proof.
  intros Hr. assert (r = 0 ∨ r = 1 ∨ r = 2) as [->|[->| ->]] by lia;
    eexists; reflexivity.
Qed.

Lemma getitem_reliability_Raise (r : Z) :
  ¬ (0 ≤ r ≤ 2) → getitem reliability_lookup r = Raise (KeyError (pretty r)).
Proof.
  intros Hr. unfold reliability_lookup. cbn [getitem].
  destruct (Z.eqb_spec 0 r); [lia|].
  destruct (Z.eqb_spec 1 r); [lia|].
  destruct (Z.eqb_spec 2 r); [lia|done].
Qed.

(** A mapping is rendered unless its reliability is not a key of
    [reliability_lookup]; nothing else can make it fail. *)
Lemma mapping_struct_Ok (m : Mapping.t) :
  0 ≤ Mapping.reliability m ≤ 2 → is_Ok (mapping_struct m).
Proof.
  intros Hr. unfold mapping_struct, mapping_reliability_constant.
  destruct (getitem_reliability_Ok _ Hr) as [v ->]. eexists; reflexivity.
Qed.

Lemma mapping_struct_Raise (m : Mapping.t) :
  ¬ (0 ≤ Mapping.reliability m ≤ 2) →
  mapping_struct m = Raise (KeyError (pretty (Mapping.reliability m))).
Proof.
  intros Hr. unfold mapping_struct, mapping_reliability_constant.
  by rewrite (getitem_reliability_Raise _ Hr).
Qed.

Lemma mappings_loop_mapM (acc : list string) (ms : list Mapping.t) :
  mappings_loop acc ms = ss ← mapM mapping_struct ms; Ok (acc ++ ss).
Proof.
  revert acc. induction ms as [|m ms IH]; intros acc; cbn [mappings_loop mapM].
  - monad_simpl. by rewrite app_nil_r.
  - destruct (mapping_struct m) as [s|e]; monad_simpl; [|done].
    rewrite IH. destruct (mapM mapping_struct ms) as [ss|e]; monad_simpl; [|done].
    by rewrite <-app_assoc.
Qed.

Lemma interface_declaration_eq (i : Interface.t) :
  interface_declaration i = Ok (declaration_text i).
Proof. reflexivity. Qed.

Lemma interface_struct_Ok (i : Interface.t) (ms : list string) :
  is_Ok (interface_struct i ms).
Proof. eexists; reflexivity. Qed.

Lemma interface_texts_Ok (i : Interface.t) (d s : string) :
  interface_texts i = Ok (d, s) ↔
  ∃ records,
    Forall2 (λ m r, mapping_struct m = Ok r) (Interface.mappings i) records ∧
    interface_struct i records = Ok s ∧ d = declaration_text i.
Proof.
  unfold interface_texts. rewrite mappings_loop_mapM. split.
  - intros H. apply bind_Ok in H as (ms & Hms & H).
    apply bind_Ok in Hms as (records & Hrec & [= <-]). cbn [app] in H.
    apply bind_Ok in H as (s' & Hs & H). rewrite interface_declaration_eq in H.
    monad_simpl in H. injection H as <- <-.
    exists records. by rewrite <-mapM_result_Ok.
  - intros (records & Hrec & Hs & ->). apply mapM_result_Ok in Hrec.
    rewrite Hrec; monad_simpl; cbn [app]. by rewrite Hs.
Qed.

(** ** Directory listings *)

Lemma parent_app (d : path) (n : string) : parent (d ++ [n]) = d.
Proof. apply removelast_last. Qed.

Lemma child_name_Some (d p : path) (n : string) :
  child_name d p = Some n ↔ p = d ++ [n].
Proof.
  revert p. induction d as [|x d IH]; intros p; simpl.
  - destruct p as [|y [|z p]]; split; intros H; try done; by simplify_eq.
  - destruct p as [|y p]; [split; intros H; done|].
    destruct (String.eqb_spec x y) as [->|Hxy].
    + rewrite IH. split; intros H; by simplify_eq.
    + split; intros H; [done|]. by simplify_eq.
Qed.

Lemma elem_of_entries (σ : filesystem) (d : path) (n : string) :
  n ∈ entries σ d ↔ is_Some (σ !! (d ++ [n])).
Proof.
  unfold entries. rewrite list_elem_of_omap. split.
  - intros ([p v] & Hin & Hp). apply child_name_Some in Hp. simpl in Hp.
    apply elem_of_map_to_list in Hin. subst p. by exists v.
  - intros [v Hv]. exists (d ++ [n], v). split.
    + by apply elem_of_map_to_list.
    + by apply child_name_Some.
Qed.

Lemma NoDup_omap_inj {A B} (f : A → option B) (l : list A) :
  NoDup l →
  (∀ x y z, x ∈ l → y ∈ l → f x = Some z → f y = Some z → x = y) →
  NoDup (omap f l).
Proof.
  induction 1 as [|x l Hx Hl IH]; intros Hinj; simpl; [constructor|].
  assert (NoDup (omap f l)) as Hrec.
  { apply IH. intros y1 y2 z H1 H2. apply Hinj; by right. }
  destruct (f x) as [z|] eqn:Hfx; [|done].
  constructor; [|done]. rewrite list_elem_of_omap. intros (y & Hy & Hfy).
  assert (x = y) as -> by (apply (Hinj x y z); [left|right|..]; done).
  done.
Qed.

Lemma NoDup_entries (σ : filesystem) (d : path) : NoDup (entries σ d).
Proof.
  apply NoDup_omap_inj; [apply NoDup_map_to_list|].
  intros [p1 v1] [p2 v2] n H1 H2 Hp1 Hp2. simpl in *.
  apply child_name_Some in Hp1, Hp2. subst p1 p2.
  apply elem_of_map_to_list in H1, H2. by simplify_eq.
Qed.

Lemma iterdir_Ok (σ : filesystem) (d : path) (l : list string) :
  iterdir σ d = Ok l ↔ σ !! d = Some Dir ∧ l = entries σ d.
Proof.
  unfold iterdir. destruct (σ !! d) as [[|text]|]; split;
    try (intros [H1 H2]; by simplify_eq); intros H; by simplify_eq.
Qed.

(** ** The sorted list of schema files *)

Lemma json_files_Permutation (entries : list string) :
  json_files entries ≡ₚ filter (λ n, suffix n = ".json") entries.
Proof. apply merge_sort_Permutation. Qed.

Lemma elem_of_json_files (entries : list string) (n : string) :
  n ∈ json_files entries ↔ n ∈ entries ∧ suffix n = ".json".
Proof.
  rewrite json_files_Permutation, list_elem_of_filter. tauto.
Qed.

Lemma json_files_sorted (entries : list string) :
  StronglySorted String.le (json_files entries).
Proof. apply StronglySorted_merge_sort; apply _. Qed.

Lemma NoDup_json_files (entries : list string) :
  NoDup entries → NoDup (json_files entries).
Proof. intros H. rewrite json_files_Permutation. by apply NoDup_filter. Qed.

(** Two listings with the same schema files give the same sorted list,
    whatever their order and whatever else they hold. *)
Lemma json_files_unique (l1 l2 : list string) :
  NoDup l1 → NoDup l2 →
  (∀ n, suffix n = ".json" → n ∈ l1 ↔ n ∈ l2) →
  json_files l1 = json_files l2.
Proof.
  intros H1 H2 Hsame.
  apply (StronglySorted_unique String.le); try apply json_files_sorted.
  apply NoDup_Permutation; try by apply NoDup_json_files.
  intros n. rewrite !elem_of_json_files. specialize (Hsame n). tauto.
Qed.

(** ** The outer loop in closed form *)

Section render_facts.

Variable load : string → result Interface.t.

Lemma interface_step_eq σ d acc n :
  interface_step load σ d acc n =
  r ← file_texts load σ d n; Ok (acc.1 ++ [r.1], acc.2 ++ [r.2]).
Proof.
  unfold interface_step, file_texts, interface_texts.
  destruct (open_read σ (d ++ [n])) as [text|e]; monad_simpl; [|done].
  destruct (load text) as [i|e]; monad_simpl; [|done].
  destruct (mappings_loop [] (Interface.mappings i)) as [ms|e]; monad_simpl; [|done].
  destruct (interface_struct i ms) as [st|e]; monad_simpl; [|done].
  by rewrite interface_declaration_eq.
Qed.

Lemma interfaces_loop_mapM σ d acc files :
  interfaces_loop load σ d acc files =
  rs ← mapM (file_texts load σ d) files; Ok (acc.1 ++ rs.*1, acc.2 ++ rs.*2).
Proof.
  revert acc. induction files as [|n files IH]; intros [ds ss];
    cbn [interfaces_loop mapM].
  - monad_simpl. cbn [fmap list_fmap fst snd]. by rewrite !app_nil_r.
  - rewrite interface_step_eq.
    destruct (file_texts load σ d n) as [[dn sn]|e]; monad_simpl; [|done].
    rewrite IH.
    destruct (mapM (file_texts load σ d) files) as [rs|e]; monad_simpl; [|done].
    cbn [fmap list_fmap fst snd]. by rewrite <-!app_assoc.
Qed.

Lemma render_eq σ d fn :
  render load σ d fn =
  entries ← iterdir σ d;
  rs ← mapM (file_texts load σ d) (json_files entries);
  header ← interfaces_header fn rs.*1;
  source ← interfaces_source fn rs.*2;
  Ok (header, source).
Proof.
  unfold render. destruct (iterdir σ d) as [l|e]; monad_simpl; [|done].
  rewrite interfaces_loop_mapM.
  by destruct (mapM (file_texts load σ d) (json_files l)) as [rs|e].
Qed.

(** The rendered texts depend on the file system only through the input
    directory and its schema files. *)
Lemma render_agree σ σ' d fn :
  σ !! d = σ' !! d →
  (∀ n, suffix n = ".json" → σ !! (d ++ [n]) = σ' !! (d ++ [n])) →
  render load σ d fn = render load σ' d fn.
Proof.
  intros Hd Hfiles. rewrite !render_eq. unfold iterdir. rewrite <-Hd.
  destruct (σ !! d) as [[|text]|] eqn:Hσd; [|done..]. monad_simpl.
  assert (json_files (entries σ d) = json_files (entries σ' d)) as <-.
  { apply json_files_unique; try apply NoDup_entries.
    intros n Hn. by rewrite !elem_of_entries, (Hfiles n Hn). }
  rewrite (mapM_result_ext (file_texts load σ d) (file_texts load σ' d)); [done|].
  intros n Hn. apply elem_of_json_files in Hn as [_ Hn].
  unfold file_texts, open_read. by rewrite parent_app, (Hfiles n Hn), Hσd, <-Hd.
Qed.

End render_facts.

(** ** Writing *)

Lemma mkdir_Ok σ p σ' :
  mkdir σ p = Ok σ' → σ !! p = None ∧ σ' = <[p := Dir]> σ.
Proof.
  unfold mkdir. destruct (σ !! p); [done|].
  destruct (σ !! parent p) as [[|?]|]; [|done..]. by intros [= <-].
Qed.

Lemma makedirs_rev_Ok σ rp σ' :
  makedirs_rev σ rp = Ok σ' →
  extends_to (reverse rp) σ σ' ∧ σ' !! reverse rp = Some Dir.
Proof.
  revert σ'. induction rp as [|n rhead IH]; intros σ'; cbn [makedirs_rev].
  - intros [Hnone ->]%mkdir_Ok. split; [|by rewrite lookup_insert_eq].
    intros p. destruct (decide (p = [])) as [->|Hp].
    + right. by rewrite lookup_insert_eq.
    + left. by rewrite lookup_insert_ne.
  - intros H. apply bind_Ok in H as (σ1 & H1 & H2).
    apply mkdir_Ok in H2 as [Hnone ->].
    rewrite reverse_cons in *.
    assert (extends_to (reverse rhead) σ σ1) as Hext.
    { destruct (exists_ σ (reverse rhead)).
      - injection H1 as <-. intros p. by left.
      - by apply IH. }
    split; [|by rewrite lookup_insert_eq].
    intros p. destruct (decide (p = reverse rhead ++ [n])) as [->|Hp].
    + right. rewrite lookup_insert_eq. split_and!; [|done..].
      destruct (Hext (reverse rhead ++ [n])) as [<-|(? & ? & ?)]; [done|congruence].
    + rewrite lookup_insert_ne by done.
      destruct (Hext p) as [?|(? & ? & ?)]; [by left|right].
      split_and!; [done..|]. by apply prefix_app_r.
Qed.

Lemma makedirs_Ok σ d σ' :
  makedirs σ d = Ok σ' → extends_to d σ σ' ∧ σ' !! d = Some Dir.
Proof.
  unfold makedirs. intros H%makedirs_rev_Ok. by rewrite reverse_involutive in H.
Qed.

Lemma open_write_Ok σ p text σ' :
  open_write σ p text = Ok σ' →
  σ !! p ≠ Some Dir ∧ σ !! parent p = Some Dir ∧ σ' = <[p := File text]> σ.
Proof.
  unfold open_write. destruct (σ !! p) as [[|?]|]; [done|..];
    (destruct (σ !! parent p) as [[|?]|]; [|done..]); by intros [= <-].
Qed.

(** A successful write: the directory is made when it is missing, then the
    two files are created or replaced. *)
Lemma write_files_Returned σ odir fn header source r :
  write_files σ odir fn header source = r → ending r = Returned →
  ∃ σ1, extends_to odir σ σ1 ∧ is_Some (σ1 !! odir) ∧
        σ1 !! generated_header odir fn ≠ Some Dir ∧
        σ1 !! generated_source odir fn ≠ Some Dir ∧
        r = Run (<[generated_source odir fn := File source]>
                 (<[generated_header odir fn := File header]> σ1)) [] Returned.
Proof.
  unfold write_files. intros <-.
  destruct (if negb (exists_ σ odir) then makedirs σ odir else Ok σ)
    as [σ1|e] eqn:H1; [|done].
  destruct (open_write σ1 _ header) as [σ2|e] eqn:H2; [|done].
  destruct (open_write σ2 _ source) as [σ3|e] eqn:H3; [|done].
  intros _. apply open_write_Ok in H2 as (Hh & _ & ->).
  apply open_write_Ok in H3 as (Hc & _ & ->).
  exists σ1. split_and!; [| |done| |done].
  - destruct (exists_ σ odir); simpl in H1.
    + injection H1 as <-. intros p; by left.
    + by apply makedirs_Ok in H1 as [? _].
  - destruct (exists_ σ odir) eqn:Hex; simpl in H1.
    + injection H1 as <-. unfold exists_ in Hex. by apply bool_decide_eq_true in Hex.
    + apply makedirs_Ok in H1 as [_ ->]. by eexists.
  - intros Hd. apply Hc. rewrite lookup_insert_ne; [done|].
    unfold generated_header, generated_source. intros [_ H]%app_inj_tail.
    by apply app_h_ne_app_c in H.
Qed.

(** ** Write mode, then check mode *)

Lemma entry_towards_prefix (d p : path) (n : string) :
  (d ++ [n]) `prefix_of` p → entry_towards d p = Some n.
Proof.
  revert p. induction d as [|x d IH]; intros p [k ->]; simpl; [done|].
  rewrite String.eqb_refl. apply IH. by exists k.
Qed.

Section write_then_check.

Variable load : string → result Interface.t.

Lemma generate_interfaces_write_Returned σ idir odir fn :
  ending (generate_interfaces load σ idir odir fn false) = Returned →
  ∃ header source σ1,
    render load σ idir fn = Ok (header, source) ∧
    extends_to odir σ σ1 ∧ is_Some (σ1 !! odir) ∧
    σ1 !! generated_header odir fn ≠ Some Dir ∧
    σ1 !! generated_source odir fn ≠ Some Dir ∧
    generate_interfaces load σ idir odir fn false =
      Run (<[generated_source odir fn := File source]>
           (<[generated_header odir fn := File header]> σ1)) [] Returned.
Proof.
  unfold generate_interfaces.
  destruct (render load σ idir fn) as [[header source]|e]; [|done].
  intros Hend.
  destruct (write_files_Returned σ odir fn header source _ eq_refl Hend)
    as (σ1 & H1 & H2 & H3 & H4 & H5).
  by exists header, source, σ1.
Qed.

(** After a successful write the input directory and its schema files are
    as before, provided the output directory is valid for it. *)
Lemma write_keeps_schema_files σ σ1 idir odir fn header source :
  σ !! idir = Some Dir →
  output_dir_valid idir odir = true →
  extends_to odir σ σ1 →
  σ1 !! generated_header odir fn ≠ Some Dir →
  σ1 !! generated_source odir fn ≠ Some Dir →
  let σ3 := <[generated_source odir fn := File source]>
            (<[generated_header odir fn := File header]> σ1) in
  σ3 !! idir = σ !! idir ∧
  ∀ n, suffix n = ".json" → σ3 !! (idir ++ [n]) = σ !! (idir ++ [n]).
Proof.
  intros Hd Hvalid Hext Hh Hc σ3.
  assert (σ1 !! idir = Some Dir) as Hd1.
  { destruct (Hext idir) as [->|(? & _)]; [done|congruence]. }
  split.
  - unfold σ3. rewrite !lookup_insert_ne by congruence. by rewrite Hd1.
  - intros n Hn. unfold σ3, generated_header, generated_source.
    rewrite !lookup_insert_ne.
    + destruct (Hext (idir ++ [n])) as [?|(_ & _ & Hpre)]; [done|].
      apply entry_towards_prefix in Hpre. unfold output_dir_valid in Hvalid.
      rewrite Hpre, Hn in Hvalid. done.
    + intros [_ <-]%app_inj_tail. by apply suffix_app_h in Hn.
    + intros [_ <-]%app_inj_tail. by apply suffix_app_c in Hn.
Qed.


End write_then_check.

(** ** The rendered texts, written out *)

Lemma mapping_struct_eq (m : Mapping.t) :
  mapping_struct m =
  c ← mapping_reliability_constant (Mapping.reliability m);
  Ok (mapping_record_text (Mapping.endpoint m)
        ("ASTARTE_MAPPING_TYPE_" +:+ upper (Mapping.type m)) c
        (c_bool (Mapping.explicit_timestamp m)) (c_bool (Mapping.allow_unset m))).
Proof.
  unfold mapping_struct.
  destruct (mapping_reliability_constant (Mapping.reliability m)); reflexivity.
Qed.

Lemma interface_struct_eq (i : Interface.t) (records : list string) :
  interface_struct i records =
  Ok (definition_text i (interface_name_sc (Interface.name i))
        (pretty (length (Interface.mappings i))) (join "" records)).
Proof. reflexivity. Qed.

Lemma mapping_reliability_constant_Raise (r : Z) :
  ¬ (0 ≤ r ≤ 2) → mapping_reliability_constant r = Raise (KeyError (pretty r)).
Proof.
  intros Hr. unfold mapping_reliability_constant.
  by rewrite (getitem_reliability_Raise r Hr).
Qed.


(** ** Runs that fail before anything is written *)

Lemma interface_texts_bad_reliability (i : Interface.t) (m : Mapping.t) :
  m ∈ Interface.mappings i → ¬ (0 ≤ Mapping.reliability m ≤ 2) →
  ∃ e, interface_texts i = Raise e.
Proof.
  intros Hm Hr. unfold interface_texts. rewrite mappings_loop_mapM.
  destruct (proj2 (mapM_result_Raise mapping_struct (Interface.mappings i)))
    as [e ->]; [|by exists e].
  apply Exists_exists. exists m. split; [done|].
  eexists. by apply mapping_struct_Raise.
Qed.

Section failing_runs.

Variable load : string → result Interface.t.

Lemma generate_interfaces_render_Raise σ idir odir fn check e :
  render load σ idir fn = Raise e →
  generate_interfaces load σ idir odir fn check = Run σ [] (Raised e).
Proof. unfold generate_interfaces. by intros ->. Qed.

(** A schema file that cannot be turned into its two texts makes the
    rendering fail, wherever it comes in the order of the files. *)
Lemma render_bad_file σ idir fn n :
  is_Some (σ !! (idir ++ [n])) → suffix n = ".json" →
  (∃ e, file_texts load σ idir n = Raise e) →
  ∃ e, render load σ idir fn = Raise e.
Proof.
  intros Hn Hsuffix Hbad. rewrite render_eq.
  destruct (iterdir σ idir) as [l|e] eqn:Hl; [|by exists e].
  apply iterdir_Ok in Hl as [_ ->]. monad_simpl.
  destruct (proj2 (mapM_result_Raise (file_texts load σ idir)
                     (json_files (entries σ idir)))) as [e ->]; [|by exists e].
  apply Exists_exists. exists n. split; [|done].
  apply elem_of_json_files. by rewrite elem_of_entries.
Qed.

Lemma file_texts_load_Raise σ idir n text e :
  σ !! (idir ++ [n]) = Some (File text) → load text = Raise e →
  file_texts load σ idir n = Raise e.
Proof. intros Hn Hload. unfold file_texts, open_read. by rewrite Hn; monad_simpl; rewrite Hload. Qed.

Lemma file_texts_bad_reliability σ idir n text i m :
  σ !! (idir ++ [n]) = Some (File text) → load text = Ok i →
  m ∈ Interface.mappings i → ¬ (0 ≤ Mapping.reliability m ≤ 2) →
  ∃ e, file_texts load σ idir n = Raise e.
Proof.
  intros Hn Hload Hm Hr. unfold file_texts, open_read.
  rewrite Hn; monad_simpl; rewrite Hload; monad_simpl.
  by apply (interface_texts_bad_reliability i m).
Qed.

(** C5: when a schema file of the input directory is malformed, that is,
    when loading it raises (it fails to parse or fails validation), the run
    ends with an uncaught exception, in write mode as in check mode, whatever
    the other files are and wherever the malformed file comes in the order;
    the file system is left exactly as it was, so no artifact is written or
    partially written, and the exit status of the process is 1. *)
Theorem C5_malformed_file_aborts_run σ idir odir fn check n text e :
  σ !! (idir ++ [n]) = Some (File text) → suffix n = ".json" →
  load text = Raise e →
  ∃ e', generate_interfaces load σ idir odir fn check = Run σ [] (Raised e') ∧
        exit_code (Raised e') = 1.
Proof.
  intros Hn Hsuffix Hload.
  destruct (render_bad_file σ idir fn n) as [e' He']; [by rewrite Hn|done|..].
  { exists e. by apply (file_texts_load_Raise σ idir n text). }
  exists e'. split; [|done]. by apply generate_interfaces_render_Raise.
Qed.

(** C9: the reliability values 0, 1 and 2 are rendered as
    [ASTARTE_MAPPING_RELIABILITY_UNRELIABLE], [_GUARANTEED] and [_UNIQUE],
    and that constant is the one written in the [.reliability] field of the
    mapping record; any other integer is not defaulted: the lookup raises
    [KeyError] (the error of the script for a reliability outside the table),
    and a run over a directory holding a schema file with such a mapping
    ends with an uncaught exception and writes nothing. *)
Theorem C9_reliability_constants :
  mapping_reliability_constant 0 = Ok "ASTARTE_MAPPING_RELIABILITY_UNRELIABLE" ∧
  mapping_reliability_constant 1 = Ok "ASTARTE_MAPPING_RELIABILITY_GUARANTEED" ∧
  mapping_reliability_constant 2 = Ok "ASTARTE_MAPPING_RELIABILITY_UNIQUE" ∧
  (∀ m c, mapping_reliability_constant (Mapping.reliability m) = Ok c →
     mapping_struct m =
     Ok (mapping_record_text (Mapping.endpoint m)
           (mapping_type_constant (Mapping.type m)) c
           (c_bool (Mapping.explicit_timestamp m))
           (c_bool (Mapping.allow_unset m)))) ∧
  (∀ r, ¬ (0 ≤ r ≤ 2) →
     mapping_reliability_constant r = Raise (KeyError (pretty r))) ∧
  (∀ m, ¬ (0 ≤ Mapping.reliability m ≤ 2) →
     mapping_struct m = Raise (KeyError (pretty (Mapping.reliability m)))) ∧
  (∀ σ idir odir fn check n text i m,
     σ !! (idir ++ [n]) = Some (File text) → suffix n = ".json" →
     load text = Ok i → m ∈ Interface.mappings i →
     ¬ (0 ≤ Mapping.reliability m ≤ 2) →
     ∃ e, generate_interfaces load σ idir odir fn check = Run σ [] (Raised e) ∧
          exit_code (Raised e) = 1).
Proof.
  split_and!; try reflexivity.
  - intros m c Hc. by rewrite mapping_struct_eq, Hc.
  - apply mapping_reliability_constant_Raise.
  - apply mapping_struct_Raise.
  - intros σ idir odir fn check n text i m Hn Hsuffix Hload Hm Hr.
    destruct (render_bad_file σ idir fn n) as [e He]; [by rewrite Hn|done|..].
    { by apply (file_texts_bad_reliability σ idir n text i m). }
    exists e. split; [|done]. by apply generate_interfaces_render_Raise.
Qed.

End failing_runs.

(** ** Check mode *)

Section check_mode.

Variable load : string → result Interface.t.

Lemma open_read_Ok σ p text :
  open_read σ p = Ok text ↔ σ !! p = Some (File text).
Proof.
  unfold open_read. destruct (σ !! p) as [[|t]|].
  - split; intros H; discriminate H.
  - split; intros H; by injection H as ->.
  - destruct (σ !! parent p) as [[|?]|]; split; intros H; discriminate H.
Qed.



Lemma check_files_exit_code σ odir fn header source :
  fs_after (check_files σ odir fn header source) = σ ∧
  (ending (check_files σ odir fn header source) ≠ Returned →
   exit_code (ending (check_files σ odir fn header source)) = 1).
Proof.
  unfold check_files.
  destruct (negb (exists_ σ odir)); [done|].
  destruct (open_read σ (generated_header odir fn)) as [t|e]; [|done].
  destruct (negb (String.eqb t header)); [done|].
  destruct (open_read σ (generated_source odir fn)) as [t'|e]; [|done].
  by destruct (negb (String.eqb t' source)).
Qed.


End check_mode.

(** ** Write mode in an existing directory *)

Lemma write_files_existing_dir σ odir fn header source :
  σ !! odir = Some Dir →
  σ !! generated_header odir fn ≠ Some Dir →
  σ !! generated_source odir fn ≠ Some Dir →
  write_files σ odir fn header source =
  Run (<[generated_source odir fn := File source]>
       (<[generated_header odir fn := File header]> σ)) [] Returned.
Proof.
  intros Hd Hh Hc. unfold write_files, exists_.
  rewrite bool_decide_eq_true_2 by (by rewrite Hd). cbn [negb].
  unfold generated_header, generated_source in *.
  assert (odir ++ [fn +:+ ".c"] ≠ odir ++ [fn +:+ ".h"]) as Hne.
  { intros [_ H]%app_inj_tail. symmetry in H. by apply app_h_ne_app_c in H. }
  assert (odir ≠ odir ++ [fn +:+ ".h"]) as Hne'.
  { intros H. apply (f_equal length) in H.
    rewrite length_app in H. simpl in H. lia. }
  assert (open_write σ (odir ++ [fn +:+ ".h"]) header
          = Ok (<[odir ++ [fn +:+ ".h"] := File header]> σ)) as ->.
  { unfold open_write. rewrite parent_app, Hd.
    by destruct (σ !! (odir ++ [fn +:+ ".h"])) as [[|?]|]. }
  unfold open_write. rewrite parent_app.
  rewrite !lookup_insert_ne by done. rewrite Hd.
  by destruct (σ !! (odir ++ [fn +:+ ".c"])) as [[|?]|].
Qed.

(** ** The two artifacts, written out *)

Lemma interfaces_header_eq (fn : string) (declarations : list string) :
  interfaces_header fn declarations = Ok (header_text fn (join newline declarations)).
Proof. reflexivity. Qed.

Lemma interfaces_source_eq (fn : string) (definitions : list string) :
  interfaces_source fn definitions = Ok (source_text fn (join newline definitions)).
Proof. reflexivity. Qed.

Lemma Forall2_compose {A B C} (P : A → B → Prop) (Q : B → C → Prop)
    (l : list A) (m : list C) :
  Forall2 (λ x z, ∃ y, P x y ∧ Q y z) l m ↔
  ∃ k, Forall2 P l k ∧ Forall2 Q k m.
Proof.
  split.
  - induction 1 as [|x z l m (y & HP & HQ) _ (k & Hk1 & Hk2)].
    + exists []. split; constructor.
    + exists (y :: k). split; by constructor.
  - intros (k & H1 & H2). revert m H2.
    induction H1 as [|x y l k HP _ IH]; intros m H2; inversion H2; subst.
    + constructor.
    + constructor; [by exists y|by apply IH].
Qed.

Lemma Forall2_impl_elem {A B} (P Q : A → B → Prop) (l : list A) (k : list B) :
  Forall2 P l k → (∀ x y, x ∈ l → P x y → Q x y) → Forall2 Q l k.
Proof.
  induction 1 as [|x y l k HP _ IH]; intros Himpl; constructor.
  - apply Himpl; [left|done].
  - apply IH. intros x' y' Hx'. apply Himpl. by right.
Qed.

Section render_closed_form.

Variable load : string → result Interface.t.

Lemma file_texts_Ok σ d n r :
  file_texts load σ d n = Ok r ↔ ∃ i, loads load σ d n i ∧ interface_texts i = Ok r.
Proof.
  unfold file_texts, loads. split.
  - intros H. apply bind_Ok in H as (text & Htext & H).
    apply bind_Ok in H as (i & Hi & H).
    exists i. split; [|done]. exists text. split; [|done].
    by apply open_read_Ok.
  - intros (i & (text & Htext & Hi) & H). apply open_read_Ok in Htext.
    rewrite Htext. monad_simpl. by rewrite Hi.
Qed.

(** Rendering succeeds exactly when the input directory exists, its schema
    files all load and the loaded interfaces all render; the texts are then
    those of the loaded interfaces, in the order of the sorted files. *)
Lemma render_Ok σ d fn header source :
  render load σ d fn = Ok (header, source) ↔
  σ !! d = Some Dir ∧
  ∃ interfaces,
    Forall2 (loads load σ d) (json_files (entries σ d)) interfaces ∧
    render_interfaces interfaces fn = Ok (header, source).
Proof.
  rewrite render_eq. unfold render_interfaces. split.
  - intros H. apply bind_Ok in H as (l & Hl & H).
    apply iterdir_Ok in Hl as [Hd ->]. split; [done|].
    apply bind_Ok in H as (rs & Hrs & H).
    apply mapM_result_Ok in Hrs.
    assert (Forall2 (λ n r, ∃ i, loads load σ d n i ∧ interface_texts i = Ok r)
              (json_files (entries σ d)) rs) as Hrs'.
    { eapply Forall2_impl; [exact Hrs|]. intros n r. apply file_texts_Ok. }
    apply Forall2_compose in Hrs' as (interfaces & H1 & H2).
    exists interfaces. split; [done|].
    apply mapM_result_Ok in H2. rewrite H2. monad_simpl.
    by rewrite interfaces_header_eq, interfaces_source_eq in H.
  - intros (Hd & interfaces & H1 & H).
    apply bind_Ok in H as (rs & Hrs & H). apply mapM_result_Ok in Hrs.
    unfold iterdir. rewrite Hd. monad_simpl.
    assert (mapM (file_texts load σ d) (json_files (entries σ d)) = Ok rs) as ->.
    { apply mapM_result_Ok.
      eapply Forall2_impl; [|intros n r; apply file_texts_Ok].
      apply Forall2_compose. by exists interfaces. }
    monad_simpl. by rewrite interfaces_header_eq, interfaces_source_eq.
Qed.

End render_closed_form.

Lemma interface_texts_Ok_iff (i : Interface.t) (r : string * string) :
  interface_texts i = Ok r ↔
  ∃ records, records_of i records ∧
             r = (declaration_text i, interface_definition i records).
Proof.
  destruct r as [d s]. rewrite interface_texts_Ok. unfold records_of.
  split; intros (records & H & H'); exists records; split; try done.
  - destruct H' as [H' ->]. rewrite interface_struct_eq in H'. by injection H' as <-.
  - injection H' as -> ->. by rewrite interface_struct_eq.
Qed.

Lemma interfaces_texts_Ok (interfaces : list Interface.t) (rs : list (string * string)) :
  Forall2 (λ i r, interface_texts i = Ok r) interfaces rs ↔
  ∃ records : list (list string),
    Forall2 records_of interfaces records ∧
    rs.*1 = declaration_text <$> interfaces ∧
    rs.*2 = zip_with interface_definition interfaces records.
Proof.
  split.
  - induction 1 as [|i r tl rs Hr _ (recs & H1 & H2 & H3)].
    + exists []. split; [constructor|done].
    + apply interface_texts_Ok_iff in Hr as (rec & Hrec & ->).
      exists (rec :: recs). split; [by constructor|].
      cbn [fmap list_fmap zip_with fst snd]. by rewrite <-H2, <-H3.
  - intros (recs & H1 & H2 & H3). revert rs H2 H3.
    induction H1 as [|i rec tl recs Hrec _ IH]; intros rs H2 H3.
    + destruct rs; [constructor|done].
    + destruct rs as [|[d s] rs]; [done|].
      cbn [fmap list_fmap zip_with fst snd] in H2, H3.
      injection H2 as -> H2. injection H3 as -> H3.
      constructor; [|by apply IH].
      apply interface_texts_Ok_iff. by exists rec.
Qed.

Lemma render_interfaces_Ok (interfaces : list Interface.t) (fn header source : string) :
  render_interfaces interfaces fn = Ok (header, source) ↔
  ∃ records : list (list string),
    Forall2 records_of interfaces records ∧
    header = header_text fn (join newline (declaration_text <$> interfaces)) ∧
    source = source_text fn
               (join newline (zip_with interface_definition interfaces records)).
Proof.
  unfold render_interfaces. rewrite bind_Ok.
  setoid_rewrite mapM_result_Ok. setoid_rewrite interfaces_texts_Ok. split.
  - intros (rs & (recs & H1 & H2 & H3) & H). injection H as <- <-.
    exists recs. by rewrite H2, H3.
  - intros (recs & H1 & -> & ->).
    exists (zip_with (λ i rec, (declaration_text i, interface_definition i rec))
              interfaces recs).
    assert (∀ (l : list Interface.t) (k : list (list string)),
              length l = length k →
              (zip_with (λ i rec, (declaration_text i, interface_definition i rec))
                 l k).*1 = declaration_text <$> l ∧
              (zip_with (λ i rec, (declaration_text i, interface_definition i rec))
                 l k).*2 = zip_with interface_definition l k) as Hzip.
    { induction l as [|x l IH]; intros [|y k] Hlen; try done.
      cbn [fmap list_fmap zip_with fst snd].
      destruct (IH k) as [-> ->]; [by injection Hlen|done]. }
    destruct (Hzip interfaces recs (Forall2_length _ _ _ H1)) as [E1 E2].
    split; [by exists recs|]. by rewrite E1, E2.
Qed.

(** ** Order and determinism *)

Section order_and_determinism.

Variable load : string → result Interface.t.

Lemma written_artifacts σ idir odir fn :
  ending (generate_interfaces load σ idir odir fn false) = Returned →
  ∃ header source,
    render load σ idir fn = Ok (header, source) ∧
    fs_after (generate_interfaces load σ idir odir fn false)
      !! generated_header odir fn = Some (File header) ∧
    fs_after (generate_interfaces load σ idir odir fn false)
      !! generated_source odir fn = Some (File source).
Proof.
  intros Hend.
  destruct (generate_interfaces_write_Returned load σ idir odir fn Hend)
    as (header & source & σ1 & Hrender & _ & _ & _ & _ & ->).
  exists header, source. split; [done|]. cbn [fs_after].
  assert (generated_header odir fn ≠ generated_source odir fn) as Hne.
  { unfold generated_header, generated_source. intros [_ H]%app_inj_tail.
    by apply app_h_ne_app_c in H. }
  rewrite lookup_insert_ne by done. by rewrite !lookup_insert_eq.
Qed.

(** C7: in the two artifacts that a write-mode run leaves, the interfaces
    come in the lexicographic order of their file names: the files are the
    entries of the input directory that the extension filter selects, sorted
    by name, the same list for every order in which the directory may be
    listed; the header holds their declarations and the source their
    definitions in that order, and each definition holds the records of the
    mappings of its interface one per mapping and in the order of the
    document. *)
Theorem C7_output_order σ idir odir fn :
  ending (generate_interfaces load σ idir odir fn false) = Returned →
  ∃ (files : list string) (interfaces : list Interface.t)
    (records : list (list string)),
    (∀ n, n ∈ files ↔ is_Some (σ !! (idir ++ [n])) ∧ suffix n = ".json") ∧
    StronglySorted String.le files ∧ NoDup files ∧
    (∀ listing, listing ≡ₚ entries σ idir → json_files listing = files) ∧
    Forall2 (loads load σ idir) files interfaces ∧
    Forall2 records_of interfaces records ∧
    fs_after (generate_interfaces load σ idir odir fn false)
      !! generated_header odir fn
    = Some (File (header_text fn
                    (join newline (declaration_text <$> interfaces)))) ∧
    fs_after (generate_interfaces load σ idir odir fn false)
      !! generated_source odir fn
    = Some (File (source_text fn
                    (join newline
                       (zip_with interface_definition interfaces records)))).
Proof.
  intros Hend.
  destruct (written_artifacts σ idir odir fn Hend)
    as (header & source & Hrender & -> & ->).
  apply render_Ok in Hrender as (_ & interfaces & Hloads & Hrender).
  apply render_interfaces_Ok in Hrender as (records & Hrec & -> & ->).
  exists (json_files (entries σ idir)), interfaces, records.
  split_and!; try done.
  - intros n. by rewrite elem_of_json_files, elem_of_entries.
  - apply json_files_sorted.
  - apply NoDup_json_files, NoDup_entries.
  - intros listing Hperm. apply json_files_unique.
    + rewrite Hperm. apply NoDup_entries.
    + apply NoDup_entries.
    + intros n _. by rewrite Hperm.
Qed.

(** C8: the two texts are a function of the sequence of loaded interfaces
    and of the base name, [render_interfaces].  Two write-mode runs with the
    same base name over file systems that hold the same schema files in the
    input directory, and differ in anything else (what else they hold, the
    order in which they list the directory, where the output goes), leave
    byte-identical artifacts. *)
Theorem C8_rendering_is_deterministic σ1 σ2 idir odir1 odir2 fn :
  σ1 !! idir = σ2 !! idir →
  (∀ n, suffix n = ".json" → σ1 !! (idir ++ [n]) = σ2 !! (idir ++ [n])) →
  ending (generate_interfaces load σ1 idir odir1 fn false) = Returned →
  ending (generate_interfaces load σ2 idir odir2 fn false) = Returned →
  ∃ interfaces header source,
    Forall2 (loads load σ1 idir) (json_files (entries σ1 idir)) interfaces ∧
    Forall2 (loads load σ2 idir) (json_files (entries σ2 idir)) interfaces ∧
    render_interfaces interfaces fn = Ok (header, source) ∧
    fs_after (generate_interfaces load σ1 idir odir1 fn false)
      !! generated_header odir1 fn = Some (File header) ∧
    fs_after (generate_interfaces load σ1 idir odir1 fn false)
      !! generated_source odir1 fn = Some (File source) ∧
    fs_after (generate_interfaces load σ2 idir odir2 fn false)
      !! generated_header odir2 fn = Some (File header) ∧
    fs_after (generate_interfaces load σ2 idir odir2 fn false)
      !! generated_source odir2 fn = Some (File source).
Proof.
  intros Hd Hfiles Hend1 Hend2.
  destruct (written_artifacts σ1 idir odir1 fn Hend1)
    as (header & source & Hrender1 & Hh1 & Hs1).
  destruct (written_artifacts σ2 idir odir2 fn Hend2)
    as (header2 & source2 & Hrender2 & Hh2 & Hs2).
  rewrite <-(render_agree load σ1 σ2 idir fn Hd Hfiles), Hrender1 in Hrender2.
  injection Hrender2 as <- <-.
  assert (json_files (entries σ2 idir) = json_files (entries σ1 idir)) as Hsame.
  { apply json_files_unique; try apply NoDup_entries.
    intros n Hn. by rewrite !elem_of_entries, (Hfiles n Hn). }
  apply render_Ok in Hrender1 as (_ & interfaces & Hloads & Hrender).
  exists interfaces, header, source. split_and!; try done.
  rewrite Hsame. eapply Forall2_impl_elem; [exact Hloads|].
  intros n i Hin (text & Hn & Hi). exists text. split; [|done].
  apply elem_of_json_files in Hin as [_ Hin]. by rewrite <-Hfiles.
Qed.

End order_and_determinism.

(** ** C1: symbol collisions *)





(** ** C2: the type constant *)



(** ** C10: an interface without mappings *)



(** ** The claims at concrete inputs *)


(** One valid and one malformed schema file: nothing is written. *)
Lemma C5_witness :
  broken_fs !! (["in"] ++ ["z.json"]) = Some (File "{") ∧
  suffix "z.json" = ".json" ∧
  example_load "{" = Raise (LoadError "{") ∧
  ∃ e', generate_interfaces example_load broken_fs ["in"] ["out"]
          "generated_interfaces" false = Run broken_fs [] (Raised e') ∧
        exit_code (Raised e') = 1.
Proof.
  split; [reflexivity|]. split; [reflexivity|]. split; [reflexivity|].
  apply (C5_malformed_file_aborts_run example_load broken_fs ["in"] ["out"]
           "generated_interfaces" false "z.json" "{" (LoadError "{"));
    reflexivity.
Defined.


(** The two colliding files: [a.json] comes before [b.json] in both
    artifacts. *)
Lemma C7_witness :
  ending (generate_interfaces example_load collision_fs ["in"] ["out"]
            "generated_interfaces" false) = Returned ∧
  ∃ (files : list string) (interfaces : list Interface.t)
    (records : list (list string)),
    (∀ n, n ∈ files ↔ is_Some (collision_fs !! (["in"] ++ [n])) ∧ suffix n = ".json") ∧
    StronglySorted String.le files ∧ NoDup files ∧
    (∀ listing, listing ≡ₚ entries collision_fs ["in"] → json_files listing = files) ∧
    Forall2 (loads example_load collision_fs ["in"]) files interfaces ∧
    Forall2 records_of interfaces records ∧
    fs_after (generate_interfaces example_load collision_fs ["in"] ["out"]
                "generated_interfaces" false)
      !! generated_header ["out"] "generated_interfaces"
    = Some (File (header_text "generated_interfaces"
                    (join newline (declaration_text <$> interfaces)))) ∧
    fs_after (generate_interfaces example_load collision_fs ["in"] ["out"]
                "generated_interfaces" false)
      !! generated_source ["out"] "generated_interfaces"
    = Some (File (source_text "generated_interfaces"
                    (join newline
                       (zip_with interface_definition interfaces records)))).
Proof.
  assert (ending (generate_interfaces example_load collision_fs ["in"] ["out"]
                    "generated_interfaces" false) = Returned) as Hend
    by (by vm_compute).
  split; [exact Hend|].
  exact (C7_output_order example_load collision_fs ["in"] ["out"]
           "generated_interfaces" Hend).
Defined.

(** The same schema file in two file systems, one of which also holds a
    text file, written to two different output directories: the sources are
    equal. *)
Lemma C8_witness :
  example_fs !! ["in"] = example_fs_with_notes !! ["in"] ∧
  (∀ n, suffix n = ".json" →
        example_fs !! (["in"] ++ [n]) = example_fs_with_notes !! (["in"] ++ [n])) ∧
  ending (generate_interfaces example_load example_fs ["in"] ["out"]
            "generated_interfaces" false) = Returned ∧
  ending (generate_interfaces example_load example_fs_with_notes ["in"] ["in"]
            "generated_interfaces" false) = Returned ∧
  text_at (fs_after (generate_interfaces example_load example_fs ["in"] ["out"]
                       "generated_interfaces" false))
    ["out"; "generated_interfaces.c"]
  = text_at (fs_after (generate_interfaces example_load example_fs_with_notes
                         ["in"] ["in"] "generated_interfaces" false))
      ["in"; "generated_interfaces.c"].
Proof.
  assert (∀ n, suffix n = ".json" →
            example_fs !! (["in"] ++ [n])
            = example_fs_with_notes !! (["in"] ++ [n])) as Hfiles.
  { intros n Hn. unfold example_fs_with_notes.
    rewrite lookup_insert_ne; [done|].
    intros H. injection H as <-. discriminate Hn. }
  assert (ending (generate_interfaces example_load example_fs ["in"] ["out"]
                    "generated_interfaces" false) = Returned) as Hend1
    by (by vm_compute).
  assert (ending (generate_interfaces example_load example_fs_with_notes ["in"] ["in"]
                    "generated_interfaces" false) = Returned) as Hend2
    by (by vm_compute).
  split; [reflexivity|]. split; [exact Hfiles|].
  split; [exact Hend1|]. split; [exact Hend2|].
  destruct (C8_rendering_is_deterministic example_load example_fs
              example_fs_with_notes ["in"] ["out"] ["in"] "generated_interfaces"
              eq_refl Hfiles Hend1 Hend2)
    as (interfaces & header & source & _ & _ & _ & _ & Hs1 & _ & Hs2).
  unfold text_at.
  change ["out"; "generated_interfaces.c"]
    with (generated_source ["out"] "generated_interfaces").
  change ["in"; "generated_interfaces.c"]
    with (generated_source ["in"] "generated_interfaces").
  by rewrite Hs1, Hs2.
Defined.



(** A mapping of reliability 3 aborts the run. *)
Lemma C9_witness :
  careless_fs !! (["in"] ++ ["c.json"]) = Some (File "careless") ∧
  suffix "c.json" = ".json" ∧
  example_load "careless" = Ok careless_interface ∧
  (Mapping.Build "/b" "integer" 3 false false) ∈ Interface.mappings careless_interface ∧
  ¬ (0 ≤ Mapping.reliability (Mapping.Build "/b" "integer" 3 false false) ≤ 2) ∧
  ∃ e, generate_interfaces example_load careless_fs ["in"] ["out"]
         "generated_interfaces" false = Run careless_fs [] (Raised e) ∧
       exit_code (Raised e) = 1.
Proof.
  assert ((Mapping.Build "/b" "integer" 3 false false)
          ∈ Interface.mappings careless_interface) as Hm by (right; left).
  assert (¬ (0 ≤ Mapping.reliability (Mapping.Build "/b" "integer" 3 false false) ≤ 2))
    as Hr by (simpl; lia).
  split; [reflexivity|]. split; [reflexivity|]. split; [reflexivity|].
  split; [exact Hm|]. split; [exact Hr|].
  destruct (C9_reliability_constants example_load) as (_ & _ & _ & _ & _ & _ & H).
  exact (H careless_fs ["in"] ["out"] "generated_interfaces" false "c.json"
           "careless" careless_interface _ eq_refl eq_refl eq_refl Hm Hr).
Defined.


(** ** Further properties of the sanitizer and of the extension filter *)

(** X6: no dot and no hyphen is left in a sanitized symbol, and sanitizing
    a symbol again changes nothing. *)
Theorem interface_name_sc_idempotent (name : string) :
  string_forall (λ c, negb (is_separator c)) (interface_name_sc name) = true ∧
  interface_name_sc (interface_name_sc name) = interface_name_sc name.
Proof.
  induction name as [|c s [IH1 IH2]]; [done|].
  rewrite !interface_name_sc_cons. cbn [string_forall]. rewrite IH1, IH2.
  unfold sanitize_char. destruct (is_separator c) eqn:E.
  - done.
  - by rewrite E.
Qed.

Lemma last_dot_tail_Some (s t : string) :
  last_dot_tail s = Some t → ∃ pre, s = pre +:+ t.
Proof.
  revert t. induction s as [|c s IH]; intros t; simpl; [done|].
  destruct (last_dot_tail s) as [t'|].
  - intros [= <-]. destruct (IH t' eq_refl) as [pre ->].
    by exists (String c pre).
  - destruct (Ascii.eqb c "."); [|done]. intros [= <-]. by exists "".
Qed.

(** X10: the extension filter selects exactly the names made of a
    non-empty stem followed by [.json]; a file named [.json] alone is not
    selected. *)
Theorem suffix_json_iff (n : string) :
  suffix n = ".json" ↔ ∃ stem, stem ≠ "" ∧ n = stem +:+ ".json".
Proof.
  split.
  - destruct n as [|c rest]; [done|]. simpl.
    destruct (last_dot_tail rest) as [t|] eqn:Ht; [|done].
    destruct (String.length t <=? 1)%nat; [done|]. intros ->.
    destruct (last_dot_tail_Some rest ".json" Ht) as [pre ->].
    by exists (String c pre).
  - intros (stem & Hne & ->). destruct stem as [|c pre]; [done|]. simpl.
    by rewrite (last_dot_tail_app_dot pre "json").
Qed.

(** ** Further properties of the rendering of one interface *)

(** X5: in the definition of an interface the number written as the size
    of the mapping array and as [.mappings_length] is the number of mapping
    records in the initializer. *)
Theorem mapping_count_matches_records (i : Interface.t) (d s : string) :
  interface_texts i = Ok (d, s) →
  ∃ records,
    records_of i records ∧
    s = definition_text i (interface_name_sc (Interface.name i))
          (pretty (length records)) (join "" records).
Proof.
  intros H. apply interface_texts_Ok_iff in H as (records & Hrec & H).
  injection H as -> ->. exists records. split; [done|].
  unfold interface_definition. by rewrite (Forall2_length _ _ _ Hrec).
Qed.

Lemma mapM_mapping_struct_first_bad (ms : list Mapping.t) :
  match first_bad_reliability ms with
  | Some r => mapM mapping_struct ms = Raise (KeyError (pretty r))
  | None => is_Ok (mapM mapping_struct ms)
  end.
Proof.
  induction ms as [|m ms IH]; cbn [first_bad_reliability mapM].
  - by eexists.
  - destruct ((0 <=? Mapping.reliability m) && (Mapping.reliability m <=? 2))
      eqn:Hr.
    + assert (0 ≤ Mapping.reliability m ≤ 2) as Hr' by lia.
      destruct (mapping_struct_Ok m Hr') as [r ->]. monad_simpl.
      destruct (first_bad_reliability ms) as [bad|].
      * by rewrite IH.
      * destruct IH as [rs ->]. by eexists.
    + assert (¬ (0 ≤ Mapping.reliability m ≤ 2)) as Hr' by lia.
      by rewrite (mapping_struct_Raise m Hr').
Qed.

(** X7: the rendering of an interface fails exactly when one of its
    mappings has a reliability other than 0, 1 and 2, and the [KeyError]
    then carries the reliability of the first such mapping in the order of
    the document; otherwise the declaration and the definition are
    produced. *)
Theorem interface_texts_first_bad_reliability (i : Interface.t) :
  match first_bad_reliability (Interface.mappings i) with
  | Some r => interface_texts i = Raise (KeyError (pretty r))
  | None => ∃ records,
      records_of i records ∧
      interface_texts i = Ok (declaration_text i, interface_definition i records)
  end.
Proof.
  pose proof (mapM_mapping_struct_first_bad (Interface.mappings i)) as H.
  destruct (first_bad_reliability (Interface.mappings i)) as [r|].
  - unfold interface_texts. rewrite mappings_loop_mapM, H. done.
  - destruct H as [records H]. exists records.
    assert (records_of i records) as Hrec by (by apply mapM_result_Ok).
    split; [done|]. apply interface_texts_Ok_iff. by exists records.
Qed.

(** ** Further properties of a run *)

Lemma mapM_result_first_Raise {A B} (f : A → result B) (l1 l2 : list A)
    (x : A) (e : exn) :
  Forall (λ y, is_Ok (f y)) l1 → f x = Raise e →
  mapM f (l1 ++ x :: l2) = Raise e.
Proof.
  intros Hok Hx. induction Hok as [|y l1 [b Hy] _ IH]; cbn [app mapM].
  - by rewrite Hx.
  - rewrite Hy. monad_simpl. by rewrite IH.
Qed.



Lemma generated_header_ne_source (odir : path) (fn : string) :
  generated_header odir fn ≠ generated_source odir fn.
Proof.
  unfold generated_header, generated_source. intros [_ H]%app_inj_tail.
  by apply app_h_ne_app_c in H.
Qed.

Lemma generated_source_ne_header (odir : path) (fn : string) :
  generated_source odir fn ≠ generated_header odir fn.
Proof. intros H. symmetry in H. by apply generated_header_ne_source in H. Qed.

Lemma entry_ne_dir (d : path) (n : string) : d ++ [n] ≠ d.
Proof.
  intros H. apply (f_equal length) in H. rewrite length_app in H. simpl in H. lia.
Qed.

Section runs.

Variable load : string → result Interface.t.

(** What a write-mode run that returns has done, with the output directory
    as a directory. *)
Lemma write_run_Returned σ idir odir fn :
  ending (generate_interfaces load σ idir odir fn false) = Returned →
  ∃ header source σ1,
    render load σ idir fn = Ok (header, source) ∧
    extends_to odir σ σ1 ∧ σ1 !! odir = Some Dir ∧
    σ1 !! generated_header odir fn ≠ Some Dir ∧
    σ1 !! generated_source odir fn ≠ Some Dir ∧
    generate_interfaces load σ idir odir fn false =
      Run (<[generated_source odir fn := File source]>
           (<[generated_header odir fn := File header]> σ1)) [] Returned.
Proof.
  unfold generate_interfaces.
  destruct (render load σ idir fn) as [[header source]|e]; [|done].
  unfold write_files.
  destruct (if negb (exists_ σ odir) then makedirs σ odir else Ok σ)
    as [σ1|e] eqn:H1; [|done].
  destruct (open_write σ1 _ header) as [σ2|e] eqn:H2; [|done].
  destruct (open_write σ2 _ source) as [σ3|e] eqn:H3; [|done].
  intros _. apply open_write_Ok in H2 as (Hh & Hp & ->).
  apply open_write_Ok in H3 as (Hc & _ & ->).
  unfold generated_header in Hp. rewrite parent_app in Hp.
  exists header, source, σ1. split_and!; try done.
  - destruct (exists_ σ odir); simpl in H1.
    + injection H1 as <-. intros p; by left.
    + by apply makedirs_Ok in H1 as [? _].
  - intros Hd. apply Hc. rewrite lookup_insert_ne; [done|].
    apply generated_header_ne_source.
Qed.

(** After a write-mode run that returned, with a valid output directory,
    the same texts are rendered again and the artifacts hold them. *)
Lemma render_after_write σ idir odir fn :
  ending (generate_interfaces load σ idir odir fn false) = Returned →
  output_dir_valid idir odir = true →
  ∃ header source,
    render load (fs_after (generate_interfaces load σ idir odir fn false)) idir fn
    = Ok (header, source) ∧
    fs_after (generate_interfaces load σ idir odir fn false) !! odir = Some Dir ∧
    fs_after (generate_interfaces load σ idir odir fn false)
      !! generated_header odir fn = Some (File header) ∧
    fs_after (generate_interfaces load σ idir odir fn false)
      !! generated_source odir fn = Some (File source).
Proof.
  intros Hend Hvalid.
  destruct (write_run_Returned σ idir odir fn Hend)
    as (header & source & σ1 & Hrender & Hext & Hodir & Hh & Hc & ->).
  cbn [fs_after]. exists header, source.
  assert (σ !! idir = Some Dir) as Hd.
  { rewrite render_eq in Hrender. apply bind_Ok in Hrender as (l & Hl & _).
    by apply iterdir_Ok in Hl as [? _]. }
  destruct (write_keeps_schema_files σ σ1 idir odir fn header source
              Hd Hvalid Hext Hh Hc) as [Hsame_d Hsame_files].
  split_and!.
  - by rewrite (render_agree load _ σ idir fn Hsame_d Hsame_files).
  - rewrite !lookup_insert_ne; [done|apply entry_ne_dir..].
  - rewrite lookup_insert_ne by apply generated_source_ne_header.
    by rewrite lookup_insert_eq.
  - by rewrite lookup_insert_eq.
Qed.

(** X2: a check-mode run never changes the file system, however it ends. *)
Theorem check_mode_never_writes σ idir odir fn :
  fs_after (generate_interfaces load σ idir odir fn true) = σ.
Proof.
  unfold generate_interfaces.
  destruct (render load σ idir fn) as [[header source]|e]; [|done].
  apply check_files_exit_code.
Qed.

(** X3: a write-mode run, however it ends, touches nothing but the two
    artifacts and the directories it makes: every other path is as before,
    or it did not exist and is now a directory on the way to the output
    directory. *)
Theorem write_mode_frame σ idir odir fn (p : path) :
  p ≠ generated_header odir fn → p ≠ generated_source odir fn →
  fs_after (generate_interfaces load σ idir odir fn false) !! p = σ !! p ∨
  (σ !! p = None ∧
   fs_after (generate_interfaces load σ idir odir fn false) !! p = Some Dir ∧
   p `prefix_of` odir).
Proof.
  intros Hph Hpc. unfold generate_interfaces.
  destruct (render load σ idir fn) as [[header source]|e]; [|by left].
  unfold write_files.
  destruct (if negb (exists_ σ odir) then makedirs σ odir else Ok σ)
    as [σ1|e] eqn:H1; [|by left].
  assert (extends_to odir σ σ1) as Hext.
  { destruct (exists_ σ odir); simpl in H1.
    - injection H1 as <-. intros q; by left.
    - by apply makedirs_Ok in H1 as [? _]. }
  destruct (open_write σ1 _ header) as [σ2|e] eqn:H2; [|apply Hext].
  apply open_write_Ok in H2 as (_ & _ & ->).
  destruct (open_write _ _ source) as [σ3|e] eqn:H3; cbn [fs_after].
  - apply open_write_Ok in H3 as (_ & _ & ->).
    rewrite !lookup_insert_ne by done. apply Hext.
  - rewrite lookup_insert_ne by done. apply Hext.
Qed.

(** X4: write mode is idempotent: after a write-mode run that returned,
    with a valid output directory, a second write-mode run with the same
    arguments returns and leaves the file system exactly as the first one
    left it. *)
Theorem write_mode_idempotent σ idir odir fn :
  ending (generate_interfaces load σ idir odir fn false) = Returned →
  output_dir_valid idir odir = true →
  generate_interfaces load
    (fs_after (generate_interfaces load σ idir odir fn false)) idir odir fn false
  = Run (fs_after (generate_interfaces load σ idir odir fn false)) [] Returned.
Proof.
  intros Hend Hvalid.
  destruct (render_after_write σ idir odir fn Hend Hvalid)
    as (header & source & Hrender & Hodir & Hh & Hc).
  set (σ' := fs_after (generate_interfaces load σ idir odir fn false)) in *.
  unfold generate_interfaces at 1. rewrite Hrender.
  rewrite write_files_existing_dir; [|done|by rewrite Hh|by rewrite Hc].
  f_equal. rewrite (insert_id σ' _ _ Hh). by rewrite (insert_id σ' _ _ Hc).
Qed.


(** X8: the exception that ends a run is that of the first schema file,
    in the lexicographic order of the names, that cannot be loaded and
    rendered: when the file [n] fails with [e] and every schema file whose
    name comes before [n] is loaded and rendered, the run ends with [e] and
    leaves the file system as it was, whatever the files after [n] hold. *)
Theorem first_failing_file_is_reported σ idir odir fn check n e :
  σ !! idir = Some Dir →
  is_Some (σ !! (idir ++ [n])) → suffix n = ".json" →
  file_texts load σ idir n = Raise e →
  (∀ n', is_Some (σ !! (idir ++ [n'])) → suffix n' = ".json" →
         String.le n' n → n' ≠ n → is_Ok (file_texts load σ idir n')) →
  generate_interfaces load σ idir odir fn check = Run σ [] (Raised e).
Proof.
  intros Hd Hn Hsuffix He Hbefore.
  apply generate_interfaces_render_Raise. rewrite render_eq.
  unfold iterdir. rewrite Hd. monad_simpl.
  assert (n ∈ json_files (entries σ idir)) as Hin.
  { apply elem_of_json_files. by rewrite elem_of_entries. }
  apply list_elem_of_split in Hin as (l1 & l2 & Hsplit).
  pose proof (json_files_sorted (entries σ idir)) as Hsorted.
  pose proof (NoDup_json_files _ (NoDup_entries σ idir)) as Hnodup.
  rewrite Hsplit in Hsorted, Hnodup.
  assert (Forall (λ n', is_Ok (file_texts load σ idir n')) l1) as Hok.
  { apply Forall_forall. intros n' Hn'.
    assert (n' ∈ json_files (entries σ idir)) as Hin'.
    { rewrite Hsplit. apply elem_of_app. by left. }
    apply elem_of_json_files in Hin' as [Hin' Hs']. apply elem_of_entries in Hin'.
    apply Hbefore; try done.
    - apply (StronglySorted_app_1_elem_of String.le l1 (n :: l2)); [done..|left].
    - intros ->. apply NoDup_app in Hnodup as (_ & Hdisj & _).
      apply (Hdisj n Hn'). left. }
  rewrite Hsplit.
  by rewrite (mapM_result_first_Raise (file_texts load σ idir) l1 l2 n e Hok He).
Qed.

(** X9: an input directory without schema file is not an error: the two
    texts are rendered with no declaration and no definition, and nothing is
    loaded. *)
Theorem no_schema_file_renders_empty_artifacts σ idir fn :
  σ !! idir = Some Dir →
  (∀ n, is_Some (σ !! (idir ++ [n])) → suffix n ≠ ".json") →
  render load σ idir fn = Ok (header_text fn "", source_text fn "").
Proof.
  intros Hd Hnone. rewrite render_eq. unfold iterdir. rewrite Hd. monad_simpl.
  assert (json_files (entries σ idir) = []) as ->.
  { destruct (json_files (entries σ idir)) as [|n l] eqn:E; [done|].
    assert (n ∈ json_files (entries σ idir)) as Hin by (rewrite E; left).
    apply elem_of_json_files in Hin as [Hin Hs]. apply elem_of_entries in Hin.
    by destruct (Hnone n Hin). }
  reflexivity.
Qed.

(** X11: the two artifacts are not written atomically: when the header can
    be written and the path of the source is taken by a directory, the run
    ends with [IsADirectoryError] for the source and leaves the new header
    on disk. *)
Theorem header_stays_when_source_fails σ idir odir fn header source :
  render load σ idir fn = Ok (header, source) →
  σ !! odir = Some Dir →
  σ !! generated_header odir fn ≠ Some Dir →
  σ !! generated_source odir fn = Some Dir →
  generate_interfaces load σ idir odir fn false
  = Run (<[generated_header odir fn := File header]> σ) []
        (Raised (IsADirectoryError (generated_source odir fn))).
Proof.
  intros Hrender Hd Hh Hc. unfold generate_interfaces. rewrite Hrender.
  unfold write_files, exists_.
  rewrite bool_decide_eq_true_2 by (by rewrite Hd). cbn [negb].
  assert (open_write σ (generated_header odir fn) header
          = Ok (<[generated_header odir fn := File header]> σ)) as ->.
  { unfold open_write, generated_header in *. rewrite parent_app, Hd.
    by destruct (σ !! (odir ++ [fn +:+ ".h"])) as [[|?]|]. }
  unfold open_write.
  rewrite lookup_insert_ne by apply generated_header_ne_source.
  by rewrite Hc.
Qed.

(** X12: the exit status of a run is 0 or 1, and it is 0 exactly when
    [generate_interfaces] returns: the only [sys.exit] it can reach has
    code 1. *)
Theorem exit_code_is_0_or_1 σ idir odir fn check :
  (exit_code (ending (generate_interfaces load σ idir odir fn check)) = 0 ∨
   exit_code (ending (generate_interfaces load σ idir odir fn check)) = 1) ∧
  (exit_code (ending (generate_interfaces load σ idir odir fn check)) = 0 ↔
   ending (generate_interfaces load σ idir odir fn check) = Returned).
Proof.
  unfold generate_interfaces.
  destruct (render load σ idir fn) as [[header source]|e]; [|by split; [right|]].
  destruct check.
  - unfold check_files.
    destruct (negb (exists_ σ odir)); [by split; [right|]|].
    destruct (open_read σ (generated_header odir fn)) as [t|e];
      [|by split; [right|]].
    destruct (negb (String.eqb t header)); [by split; [right|]|].
    destruct (open_read σ (generated_source odir fn)) as [t'|e];
      [|by split; [right|]].
    destruct (negb (String.eqb t' source)); [by split; [right|]|by split; [left|]].
  - unfold write_files.
    destruct (if negb (exists_ σ odir) then makedirs σ odir else Ok σ) as [σ1|e];
      [|by split; [right|]].
    destruct (open_write σ1 _ header) as [σ2|e]; [|by split; [right|]].
    destruct (open_write σ2 _ source) as [σ3|e];
      [by split; [left|]|by split; [right|]].
Qed.

(** X13: a run prints only when a check fails: in write mode nothing is
    printed, and in check mode either nothing is printed or exactly one
    line is, and then the run ends by [sys.exit(1)] without an exception. *)
Theorem prints_only_on_check_failure σ idir odir fn check :
  stdout (generate_interfaces load σ idir odir fn check) = [] ∨
  (check = true ∧
   ending (generate_interfaces load σ idir odir fn check) = SysExit 1 ∧
   ∃ line, stdout (generate_interfaces load σ idir odir fn check) = [line]).
Proof.
  unfold generate_interfaces.
  destruct (render load σ idir fn) as [[header source]|e]; [|by left].
  destruct check.
  - unfold check_files.
    destruct (negb (exists_ σ odir)); [right; eauto|].
    destruct (open_read σ (generated_header odir fn)) as [t|e]; [|by left].
    destruct (negb (String.eqb t header)); [right; eauto|].
    destruct (open_read σ (generated_source odir fn)) as [t'|e]; [|by left].
    destruct (negb (String.eqb t' source)); [right; eauto|by left].
  - left. unfold write_files.
    destruct (if negb (exists_ σ odir) then makedirs σ odir else Ok σ) as [σ1|e];
      [|done].
    destruct (open_write σ1 _ header) as [σ2|e]; [|done].
    by destruct (open_write σ2 _ source) as [σ3|e].
Qed.

(** X14: when the input directory is missing, or is a regular file, the run
    ends with [FileNotFoundError], respectively [NotADirectoryError], for
    that path, in write mode as in check mode, before the output directory
    is looked at: nothing is made, written or printed. *)
Theorem missing_input_directory σ idir odir fn check :
  (σ !! idir = None →
   generate_interfaces load σ idir odir fn check
   = Run σ [] (Raised (FileNotFoundError idir))) ∧
  (∀ text, σ !! idir = Some (File text) →
   generate_interfaces load σ idir odir fn check
   = Run σ [] (Raised (NotADirectoryError idir))).
Proof.
  split; [intros Hd|intros text Hd];
    apply generate_interfaces_render_Raise; unfold render, iterdir; by rewrite Hd.
Qed.

End runs.

(** ** The output directory *)

Section output_directory.

Variable load : string → result Interface.t.

(** X15: after a write-mode run that returned, the output directory is a
    directory, also when it did not exist before the run, and the two
    artifacts are regular files in it that hold the rendered texts. *)
Theorem write_mode_makes_output_directory σ idir odir fn :
  ending (generate_interfaces load σ idir odir fn false) = Returned →
  fs_after (generate_interfaces load σ idir odir fn false) !! odir = Some Dir ∧
  ∃ header source,
    render load σ idir fn = Ok (header, source) ∧
    fs_after (generate_interfaces load σ idir odir fn false)
      !! generated_header odir fn = Some (File header) ∧
    fs_after (generate_interfaces load σ idir odir fn false)
      !! generated_source odir fn = Some (File source).
Proof.
  intros Hend.
  destruct (write_run_Returned load σ idir odir fn Hend)
    as (header & source & σ1 & Hrender & _ & Hodir & _ & _ & ->).
  cbn [fs_after]. split.
  - rewrite !lookup_insert_ne; [done|apply entry_ne_dir..].
  - exists header, source. split_and!; [done| |by rewrite lookup_insert_eq].
    rewrite lookup_insert_ne by apply generated_source_ne_header.
    by rewrite lookup_insert_eq.
Qed.

(** X16: when the output directory does not exist and the path above it is
    a regular file, the directory cannot be made: the write-mode run ends
    with [NotADirectoryError] for the output directory and the file system
    is left as it was. *)
Theorem output_directory_below_regular_file σ idir d n fn header source text :
  render load σ idir fn = Ok (header, source) →
  σ !! d = Some (File text) → σ !! (d ++ [n]) = None →
  generate_interfaces load σ idir (d ++ [n]) fn false
  = Run σ [] (Raised (NotADirectoryError (d ++ [n]))).
Proof.
  intros Hrender Hd Hn. unfold generate_interfaces. rewrite Hrender.
  unfold write_files, exists_.
  rewrite bool_decide_eq_false_2 by (rewrite Hn; by intros [? ?]). cbn [negb].
  unfold makedirs. rewrite reverse_app, reverse_singleton.
  cbn [app makedirs_rev]. unfold exists_. rewrite reverse_involutive.
  rewrite bool_decide_eq_true_2 by (by rewrite Hd). monad_simpl.
  rewrite reverse_cons, reverse_involutive.
  unfold mkdir. by rewrite Hn, parent_app, Hd.
Qed.

End output_directory.

(** ** The further properties at concrete inputs *)

Lemma mapping_count_matches_records_witness :
  interface_texts temperature_interface
  = Ok (declaration_text temperature_interface,
        interface_definition temperature_interface
          [ mapping_record_text "/temp" "ASTARTE_MAPPING_TYPE_DOUBLE"
              "ASTARTE_MAPPING_RELIABILITY_GUARANTEED" "true" "false" ]) ∧
  ∃ records,
    records_of temperature_interface records ∧
    interface_definition temperature_interface
      [ mapping_record_text "/temp" "ASTARTE_MAPPING_TYPE_DOUBLE"
          "ASTARTE_MAPPING_RELIABILITY_GUARANTEED" "true" "false" ]
    = definition_text temperature_interface
        (interface_name_sc (Interface.name temperature_interface))
        (pretty (length records)) (join "" records).
Proof.
  split; [reflexivity|].
  exact (mapping_count_matches_records temperature_interface _ _ eq_refl).
Defined.

(** The schema file is untouched by a run that writes elsewhere. *)
Lemma write_mode_frame_witness :
  ["in"; "org.Temp.json"] ≠ generated_header ["out"; "x"] "generated_interfaces" ∧
  ["in"; "org.Temp.json"] ≠ generated_source ["out"; "x"] "generated_interfaces" ∧
  (fs_after (generate_interfaces example_load example_fs ["in"] ["out"; "x"]
               "generated_interfaces" false) !! ["in"; "org.Temp.json"]
   = example_fs !! ["in"; "org.Temp.json"] ∨
   (example_fs !! ["in"; "org.Temp.json"] = None ∧
    fs_after (generate_interfaces example_load example_fs ["in"] ["out"; "x"]
                "generated_interfaces" false) !! ["in"; "org.Temp.json"]
    = Some Dir ∧
    ["in"; "org.Temp.json"] `prefix_of` ["out"; "x"])).
Proof.
  assert (["in"; "org.Temp.json"]
          ≠ generated_header ["out"; "x"] "generated_interfaces") as H1 by done.
  assert (["in"; "org.Temp.json"]
          ≠ generated_source ["out"; "x"] "generated_interfaces") as H2 by done.
  split; [exact H1|]. split; [exact H2|].
  exact (write_mode_frame example_load example_fs ["in"] ["out"; "x"]
           "generated_interfaces" ["in"; "org.Temp.json"] H1 H2).
Defined.

Lemma write_mode_idempotent_witness :
  ending (generate_interfaces example_load example_fs ["in"] ["out"]
            "generated_interfaces" false) = Returned ∧
  output_dir_valid ["in"] ["out"] = true ∧
  generate_interfaces example_load
    (fs_after (generate_interfaces example_load example_fs ["in"] ["out"]
                 "generated_interfaces" false))
    ["in"] ["out"] "generated_interfaces" false
  = Run (fs_after (generate_interfaces example_load example_fs ["in"] ["out"]
                     "generated_interfaces" false)) [] Returned.
Proof.
  assert (ending (generate_interfaces example_load example_fs ["in"] ["out"]
                    "generated_interfaces" false) = Returned) as Hend
    by (by vm_compute).
  split; [exact Hend|]. split; [reflexivity|].
  exact (write_mode_idempotent example_load example_fs ["in"] ["out"]
           "generated_interfaces" Hend eq_refl).
Defined.


(** The file system lists [z.json] before [org.Temp.json]; the run reads
    them in the sorted order and reports the failure of [z.json]. *)
Lemma first_failing_file_witness :
  entries broken_fs ["in"] = ["z.json"; "org.Temp.json"] ∧
  file_texts example_load broken_fs ["in"] "z.json" = Raise (LoadError "{") ∧
  generate_interfaces example_load broken_fs ["in"] ["out"] "generated_interfaces" true
  = Run broken_fs [] (Raised (LoadError "{")).
Proof.
  assert (entries broken_fs ["in"] = ["z.json"; "org.Temp.json"]) as Hentries
    by (vm_compute; reflexivity).
  assert (file_texts example_load broken_fs ["in"] "z.json" = Raise (LoadError "{"))
    as Hbad by (vm_compute; reflexivity).
  assert (broken_fs !! ["in"] = Some Dir) as Hd by (vm_compute; reflexivity).
  assert (is_Some (broken_fs !! (["in"] ++ ["z.json"]))) as Hz
    by (exists (File "{"); vm_compute; reflexivity).
  assert (suffix "z.json" = ".json") as Hs by (vm_compute; reflexivity).
  split; [exact Hentries|]. split; [exact Hbad|].
  apply (first_failing_file_is_reported example_load broken_fs ["in"] ["out"]
           "generated_interfaces" true "z.json" (LoadError "{") Hd Hz Hs Hbad).
  intros n' Hn' _ _ Hne. apply elem_of_entries in Hn'. rewrite Hentries in Hn'.
  apply elem_of_cons in Hn' as [->|Hn']; [exfalso; apply Hne; reflexivity|].
  apply list_elem_of_singleton in Hn' as ->.
  exists (declaration_text temperature_interface,
          interface_definition temperature_interface
            [ mapping_record_text "/temp" "ASTARTE_MAPPING_TYPE_DOUBLE"
                "ASTARTE_MAPPING_RELIABILITY_GUARANTEED" "true" "false" ]).
  vm_compute. reflexivity.
Defined.

Lemma no_schema_file_witness :
  notes_only_fs !! ["in"] = Some Dir ∧
  (∀ n, is_Some (notes_only_fs !! (["in"] ++ [n])) → suffix n ≠ ".json") ∧
  render example_load notes_only_fs ["in"] "generated_interfaces"
  = Ok (header_text "generated_interfaces" "",
        source_text "generated_interfaces" "").
Proof.
  assert (∀ n, is_Some (notes_only_fs !! (["in"] ++ [n])) → suffix n ≠ ".json")
    as Hnone.
  { intros n Hn. apply elem_of_entries in Hn.
    assert (entries notes_only_fs ["in"] = ["notes.txt"]) as E by (by vm_compute).
    rewrite E in Hn. by apply list_elem_of_singleton in Hn as ->. }
  split; [reflexivity|]. split; [exact Hnone|].
  exact (no_schema_file_renders_empty_artifacts example_load notes_only_fs ["in"]
           "generated_interfaces" eq_refl Hnone).
Defined.

Lemma header_stays_witness :
  render example_load blocked_fs ["in"] "generated_interfaces"
  = Ok (example_header, example_source) ∧
  blocked_fs !! ["out"] = Some Dir ∧
  blocked_fs !! generated_header ["out"] "generated_interfaces" ≠ Some Dir ∧
  blocked_fs !! generated_source ["out"] "generated_interfaces" = Some Dir ∧
  generate_interfaces example_load blocked_fs ["in"] ["out"]
    "generated_interfaces" false
  = Run (<[generated_header ["out"] "generated_interfaces" := File example_header]>
           blocked_fs) []
        (Raised (IsADirectoryError (generated_source ["out"] "generated_interfaces"))).
Proof.
  assert (render example_load blocked_fs ["in"] "generated_interfaces"
          = Ok (example_header, example_source)) as Hrender
    by (vm_compute; reflexivity).
  assert (blocked_fs !! ["out"] = Some Dir) as Hd by (vm_compute; reflexivity).
  assert (blocked_fs !! generated_header ["out"] "generated_interfaces" ≠ Some Dir)
    as Hh by (vm_compute; discriminate).
  assert (blocked_fs !! generated_source ["out"] "generated_interfaces" = Some Dir)
    as Hc by (vm_compute; reflexivity).
  split; [exact Hrender|]. split; [exact Hd|]. split; [exact Hh|]. split; [exact Hc|].
  exact (header_stays_when_source_fails example_load blocked_fs ["in"] ["out"]
           "generated_interfaces" example_header example_source
           Hrender Hd Hh Hc).
Defined.

Lemma missing_input_directory_witness :
  example_fs !! ["nowhere"] = None ∧
  generate_interfaces example_load example_fs ["nowhere"] ["out"]
    "generated_interfaces" false
  = Run example_fs [] (Raised (FileNotFoundError ["nowhere"])) ∧
  example_fs !! ["in"; "org.Temp.json"] = Some (File "temperature") ∧
  generate_interfaces example_load example_fs ["in"; "org.Temp.json"] ["out"]
    "generated_interfaces" true
  = Run example_fs [] (Raised (NotADirectoryError ["in"; "org.Temp.json"])).
Proof.
  split; [reflexivity|]. split.
  - exact (proj1 (missing_input_directory example_load example_fs ["nowhere"]
                    ["out"] "generated_interfaces" false) eq_refl).
  - split; [reflexivity|].
    exact (proj2 (missing_input_directory example_load example_fs
                    ["in"; "org.Temp.json"] ["out"] "generated_interfaces" true)
             "temperature" eq_refl).
Defined.

(** The output directory [out/x] and its parent are both made. *)
Lemma write_mode_makes_output_directory_witness :
  example_fs !! ["out"; "x"] = None ∧
  ending (generate_interfaces example_load example_fs ["in"] ["out"; "x"]
            "generated_interfaces" false) = Returned ∧
  fs_after (generate_interfaces example_load example_fs ["in"] ["out"; "x"]
              "generated_interfaces" false) !! ["out"; "x"] = Some Dir.
Proof.
  assert (ending (generate_interfaces example_load example_fs ["in"] ["out"; "x"]
                    "generated_interfaces" false) = Returned) as Hend
    by (vm_compute; reflexivity).
  split; [vm_compute; reflexivity|]. split; [exact Hend|].
  exact (proj1 (write_mode_makes_output_directory example_load example_fs ["in"]
                  ["out"; "x"] "generated_interfaces" Hend)).
Defined.

(** An output directory asked for below the schema file itself. *)
Lemma output_directory_below_regular_file_witness :
  render example_load example_fs ["in"] "generated_interfaces"
  = Ok (example_header, example_source) ∧
  example_fs !! ["in"; "org.Temp.json"] = Some (File "temperature") ∧
  example_fs !! (["in"; "org.Temp.json"] ++ ["out"]) = None ∧
  generate_interfaces example_load example_fs ["in"]
    (["in"; "org.Temp.json"] ++ ["out"]) "generated_interfaces" false
  = Run example_fs []
      (Raised (NotADirectoryError (["in"; "org.Temp.json"] ++ ["out"]))).
Proof.
  assert (render example_load example_fs ["in"] "generated_interfaces"
          = Ok (example_header, example_source)) as Hrender
    by (vm_compute; reflexivity).
  assert (example_fs !! ["in"; "org.Temp.json"] = Some (File "temperature")) as Hd
    by (vm_compute; reflexivity).
  assert (example_fs !! (["in"; "org.Temp.json"] ++ ["out"]) = None) as Hn
    by (vm_compute; reflexivity).
  split; [exact Hrender|]. split; [exact Hd|]. split; [exact Hn|].
  exact (output_directory_below_regular_file example_load example_fs ["in"]
           ["in"; "org.Temp.json"] "out" "generated_interfaces"
           example_header example_source "temperature" Hrender Hd Hn).
Defined.
